(** * ParticleHeatMap

    A shallow embedding of [src/ParticleHeatMap.ts]: a heat-map overlay that
    drives the particles of a Cesium particle system from a 2D grid of
    numbers.  JavaScript numbers are IEEE-754 doubles and are modelled by
    Rocq's primitive binary64 floats, so every arithmetic step of the source
    is evaluated exactly as the program evaluates it.  Methods that can throw
    return a [JS.result]; the mutable objects the class shares with the scene
    (the particle systems held by [scene.primitives]) live in a store and are
    named by reference. *)

From Stdlib Require Import ZArith List String Bool Lia Floats Uint63.
Import ListNotations.
Local Open Scope bool_scope.
Local Open Scope float_scope.

(** ** JavaScript values and operators *)

Module JS.

(** What a [throw] carries: [Error(message)] of the program itself, the
    [TypeError] the runtime raises on a property access of [undefined], or
    the [DeveloperError] the engine raises on an argument it refuses. *)
Inductive Exception : Type :=
| Error (message : string)
| TypeError (message : string)
| DeveloperError (message : string).

Inductive result (A : Type) : Type :=
| Ok (a : A)
| Throw (e : Exception).

Arguments Ok {A} a.
Arguments Throw {A} e.

Definition bind {A B : Type} (c : result A) (k : A -> result B) : result B :=
  match c with
  | Ok a => k a
  | Throw e => Throw e
  end.

(** A call that writes to an object and may throw on the way is given by
    the object as the call leaves it and the exception, if any, that ended
    the call; [completed] is what the caller sees. *)
Definition completed {A : Type} (steps : A * option Exception) : result A :=
  match steps with
  | (a, None) => Ok a
  | (_, Some e) => Throw e
  end.

(** [Math.PI] *)
Definition PI : float := 0x1.921fb54442d18p+1.

(** [Math.abs] *)
Definition abs (v : float) : float := PrimFloat.abs v.

(** [Math.max] of two numbers. *)
Definition max (a b : float) : float :=
  if is_nan a || is_nan b then nan
  else if a <? b then b
  else if b <? a then a
  else if get_sign a then b else a.

(** A value read from an array is a number or [undefined]; used as a number,
    [undefined] is [NaN]. *)
Definition ToNumber (v : option float) : float :=
  match v with
  | Some n => n
  | None => nan
  end.

(** The global [isNaN]. *)
Definition isNaN (v : option float) : bool := is_nan (ToNumber v).

(** [ToInt32], the conversion behind the bitwise operators: the number is
    truncated toward zero, reduced modulo 2^32 and read as a signed 32-bit
    integer; [NaN] and the infinities give 0. *)
Definition truncate (v : float) : Z :=
  match Prim2SF v with
  | S754_finite s m e =>
      let t := if (0 <=? e)%Z then (Z.pos m * 2 ^ e)%Z else (Z.pos m / 2 ^ (- e))%Z in
      if s then (- t)%Z else t
  | _ => 0%Z
  end.

Definition wrap32 (n : Z) : Z := ((n + 2 ^ 31) mod 2 ^ 32 - 2 ^ 31)%Z.

Definition ToInt32 (v : float) : Z := wrap32 (truncate v).

(** [~~v]: two bitwise complements, each on the [ToInt32] of its operand. *)
Definition double_tilde (v : float) : Z :=
  wrap32 (Z.lnot (wrap32 (Z.lnot (ToInt32 v)))).

(** [a[i]] for an integer-valued index: [undefined] outside [0, a.length). *)
Definition index {A : Type} (a : list A) (i : Z) : option A :=
  if (i <? 0)%Z then None else nth_error a (Z.to_nat i).

(** [a.length], as a number. *)
Definition length {A : Type} (a : list A) : float :=
  of_uint63 (Uint63.of_Z (Z.of_nat (List.length a))).

End JS.

Notation "x <- c ;; k" := (JS.bind c (fun x => k))
  (at level 61, c at next level, right associativity).
Notation "' p <- c ;; k" := (JS.bind c (fun p => k))
  (at level 61, p pattern, c at next level, right associativity).

(** ** The value types of the host engine (Cesium) *)

Module CMath.

Definition TWO_PI : float := 2 * JS.PI.
Definition RADIANS_PER_DEGREE : float := JS.PI / 180.
Definition DEGREES_PER_RADIAN : float := 180 / JS.PI.
Definition toRadians (degrees : float) : float := degrees * RADIANS_PER_DEGREE.
Definition toDegrees (radians : float) : float := radians * DEGREES_PER_RADIAN.

End CMath.

Module Cartesian2.

Record t : Type := mk { x : float; y : float }.

End Cartesian2.

Module Cartesian3.

Record t : Type := mk { x : float; y : float; z : float }.

Definition magnitude (c : t) : float :=
  PrimFloat.sqrt (x c * x c + y c * y c + z c * z c).

Definition normalize (c : t) : t :=
  let m := magnitude c in
  mk (x c / m) (y c / m) (z c / m).

Definition multiplyByScalar (c : t) (scalar : float) : t :=
  mk (x c * scalar) (y c * scalar) (z c * scalar).

Definition add (l r : t) : t :=
  mk (x l + x r) (y l + y r) (z l + z r).

Definition subtract (l r : t) : t :=
  mk (x l - x r) (y l - y r) (z l - z r).

Definition distance (l r : t) : float := magnitude (subtract l r).

End Cartesian3.

Module Color.

Record t : Type := mk { red : float; green : float; blue : float; alpha : float }.

(** [color.withAlpha(a)]: a new colour with the same red, green and blue. *)
Definition withAlpha (c : t) (a : float) : t := mk (red c) (green c) (blue c) a.

End Color.

Module Cartographic.

Record t : Type := mk { longitude : float; latitude : float; height : float }.

End Cartographic.

Module Rectangle.

(** Bounds in radians; [width] and [height] are the getters of the class. *)
Record t : Type := mk { west : float; south : float; east : float; north : float }.

Definition width (r : t) : float :=
  let e := if east r <? west r then east r + CMath.TWO_PI else east r in
  e - west r.

Definition height (r : t) : float := north r - south r.

Definition fromDegrees (w s e n : float) : t :=
  mk (CMath.toRadians w) (CMath.toRadians s) (CMath.toRadians e) (CMath.toRadians n).

End Rectangle.

(** A 4x4 matrix, as Cesium stores it: sixteen numbers, column by column. *)
Definition Matrix4 : Type := list float.

Module Particle.

(** The particle handed to the update callback; the callback writes to
    [velocity], to the alpha of both colours, to [endColor] and to [image].
    The end colour is a colour when the engine creates the particle, and
    [undefined] ([None]) once the callback has assigned it the result of
    parsing a string that is not a colour. *)
Record t : Type := mk {
  mass : float;
  position : Cartesian3.t;
  velocity : Cartesian3.t;
  life : float;
  image : option string;
  startColor : Color.t;
  endColor : option Color.t;
  startScale : float;
  endScale : float;
  imageSize : Cartesian2.t
}.

End Particle.

(** The value of a particle system's [updateCallback]: the instance's own
    [particleCallback], bound to the instance, or, once the system is
    destroyed, the function that throws on every call. *)
Inductive UpdateCallback : Type :=
| particleCallback_bound
| throwOnDestroyed.

Module ParticleSystem.

(** The options the program passes to [new ParticleSystem]. *)
Module Options.

Record t : Type := mk {
  image : string;
  minimumSpeed : float;
  maximumSpeed : float;
  startScale : float;
  endScale : float;
  emissionRate : float;
  emitter : Cartesian3.t;   (* the dimensions of the BoxEmitter *)
  imageSize : option Cartesian2.t;
  modelMatrix : Matrix4;
  minimumParticleLife : float;
  lifetime : float;
  startColor : Color.t;
  minimumImageSize : Cartesian2.t;
  maximumImageSize : Cartesian2.t;
  updateCallback : UpdateCallback
}.

End Options.

(** The particle system object. *)
Record t : Type := mk {
  image : string;
  minimumSpeed : float;
  maximumSpeed : float;
  startScale : float;
  endScale : float;
  emissionRate : float;
  emitter : Cartesian3.t;
  modelMatrix : Matrix4;
  minimumParticleLife : float;
  lifetime : float;
  startColor : Color.t;
  minimumImageSize : Cartesian2.t;
  maximumImageSize : Cartesian2.t;
  updateCallback : UpdateCallback;
  show : bool;
  isDestroyed : bool
}.

(** [new ParticleSystem(options)]: a given [imageSize] decides both the
    minimum and the maximum image size, whatever the options give for them;
    the system is shown. *)
Definition new (o : Options.t) : t :=
  let size (otherwise : Cartesian2.t) : Cartesian2.t :=
    match Options.imageSize o with
    | Some s => s
    | None => otherwise
    end in
  {| image := Options.image o;
     minimumSpeed := Options.minimumSpeed o;
     maximumSpeed := Options.maximumSpeed o;
     startScale := Options.startScale o;
     endScale := Options.endScale o;
     emissionRate := Options.emissionRate o;
     emitter := Options.emitter o;
     modelMatrix := Options.modelMatrix o;
     minimumParticleLife := Options.minimumParticleLife o;
     lifetime := Options.lifetime o;
     startColor := Options.startColor o;
     minimumImageSize := size (Options.minimumImageSize o);
     maximumImageSize := size (Options.maximumImageSize o);
     updateCallback := Options.updateCallback o;
     show := true;
     isDestroyed := false |}.

Definition set_emissionRate (v : float) (p : t) : t :=
  mk (image p) (minimumSpeed p) (maximumSpeed p) (startScale p) (endScale p) v
     (emitter p) (modelMatrix p) (minimumParticleLife p) (lifetime p) (startColor p)
     (minimumImageSize p) (maximumImageSize p) (updateCallback p) (show p)
     (isDestroyed p).

Definition set_startColor (v : Color.t) (p : t) : t :=
  mk (image p) (minimumSpeed p) (maximumSpeed p) (startScale p) (endScale p)
     (emissionRate p) (emitter p) (modelMatrix p) (minimumParticleLife p) (lifetime p) v
     (minimumImageSize p) (maximumImageSize p) (updateCallback p) (show p)
     (isDestroyed p).

Definition set_maximumSpeed (v : float) (p : t) : t :=
  mk (image p) (minimumSpeed p) v (startScale p) (endScale p) (emissionRate p)
     (emitter p) (modelMatrix p) (minimumParticleLife p) (lifetime p) (startColor p)
     (minimumImageSize p) (maximumImageSize p) (updateCallback p) (show p)
     (isDestroyed p).

Definition set_endScale (v : float) (p : t) : t :=
  mk (image p) (minimumSpeed p) (maximumSpeed p) (startScale p) v (emissionRate p)
     (emitter p) (modelMatrix p) (minimumParticleLife p) (lifetime p) (startColor p)
     (minimumImageSize p) (maximumImageSize p) (updateCallback p) (show p)
     (isDestroyed p).

Definition set_lifetime (v : float) (p : t) : t :=
  mk (image p) (minimumSpeed p) (maximumSpeed p) (startScale p) (endScale p)
     (emissionRate p) (emitter p) (modelMatrix p) (minimumParticleLife p) v
     (startColor p) (minimumImageSize p) (maximumImageSize p) (updateCallback p)
     (show p) (isDestroyed p).

Definition set_modelMatrix (v : Matrix4) (p : t) : t :=
  mk (image p) (minimumSpeed p) (maximumSpeed p) (startScale p) (endScale p)
     (emissionRate p) (emitter p) v (minimumParticleLife p) (lifetime p) (startColor p)
     (minimumImageSize p) (maximumImageSize p) (updateCallback p) (show p)
     (isDestroyed p).

Definition set_show (v : bool) (p : t) : t :=
  mk (image p) (minimumSpeed p) (maximumSpeed p) (startScale p) (endScale p)
     (emissionRate p) (emitter p) (modelMatrix p) (minimumParticleLife p) (lifetime p)
     (startColor p) (minimumImageSize p) (maximumImageSize p) (updateCallback p) v
     (isDestroyed p).

(** [system.destroy()]: every function the object holds is replaced by the
    one that throws, and [isDestroyed()] answers true from then on. *)
Definition destroy (p : t) : t :=
  mk (image p) (minimumSpeed p) (maximumSpeed p) (startScale p) (endScale p)
     (emissionRate p) (emitter p) (modelMatrix p) (minimumParticleLife p) (lifetime p)
     (startColor p) (minimumImageSize p) (maximumImageSize p) throwOnDestroyed (show p)
     true.

End ParticleSystem.

(** The options of [camera.flyTo]. *)
Record FlyTo : Type := mkFlyTo {
  destination : Cartesian3.t;
  heading : float;
  pitch : float;
  roll : float;
  duration : float
}.

(** The functions of the engine the program calls and that are not plain
    arithmetic on doubles: the ellipsoid's two projections, the local frame at
    a point, and the parser of CSS colour strings.  The program is verified
    for every engine that provides them. *)
Class Cesium : Type := {
  Cartesian3_fromRadians : float -> float -> float -> Cartesian3.t;
  Transforms_eastNorthUpToFixedFrame : Cartesian3.t -> Matrix4;
  (* [Color.fromCssColorString]: [undefined] for a string that is not a colour *)
  Color_fromCssColorString : string -> option Color.t;
  (* [ellipsoid.cartesianToCartographic]: [undefined] at the ellipsoid's
     centre; the engine throws on a position it cannot project *)
  cartesianToCartographic : Cartesian3.t -> JS.result (option Cartographic.t)
}.

(** ** The data of the program *)

(** [ParticleHeatMapRenderOptions]: every key is optional, present with a
    value ([Some]) or absent ([None]). *)
Module RenderOptions.

Record t : Type := mk {
  emissionRate : option float;
  startColor : option string;
  upColor : option string;
  downColor : option string;
  lifetime : option float;
  scale : option float;
  maximumSpeed : option float;
  endScale : option float;
  height : option float
}.

(** The empty object [{}]. *)
Definition empty : t := mk None None None None None None None None None.

End RenderOptions.

(** [Required<ParticleHeatMapRenderOptions>]: every key is present. *)
Module Required.

Record t : Type := mk {
  emissionRate : float;
  startColor : string;
  upColor : string;
  downColor : string;
  lifetime : float;
  scale : float;
  maximumSpeed : float;
  endScale : float;
  height : float
}.

(** [{ ...base, ...options }]: a key present in [options] wins. *)
Definition spread (base : t) (options : RenderOptions.t) : t :=
  let pick {A : Type} (o : option A) (b : A) : A :=
    match o with Some v => v | None => b end in
  mk (pick (RenderOptions.emissionRate options) (emissionRate base))
     (pick (RenderOptions.startColor options) (startColor base))
     (pick (RenderOptions.upColor options) (upColor base))
     (pick (RenderOptions.downColor options) (downColor base))
     (pick (RenderOptions.lifetime options) (lifetime base))
     (pick (RenderOptions.scale options) (scale base))
     (pick (RenderOptions.maximumSpeed options) (maximumSpeed base))
     (pick (RenderOptions.endScale options) (endScale base))
     (pick (RenderOptions.height options) (height base)).

End Required.

Definition defaultOptions : Required.t :=
  {| Required.emissionRate := 1000.0;
     Required.scale := 10;
     Required.maximumSpeed := 1.0;
     Required.height := 1000;
     Required.endScale := 1.0;
     Required.startColor := "rgba(0, 247, 255, 1)";
     Required.upColor := "rgba(255, 255, 0, 1)";
     Required.downColor := "rgba(0, 0, 255, 1)";
     Required.lifetime := 12.0 |}.

Record ParticleHeatMapOptions : Type := mkOptions {
  options_rectangle : Rectangle.t;
  options_data : list (list float);
  options_renderOptions : option RenderOptions.t
}.

(** A reference to a particle system object: its place in the store. *)
Definition ref : Type := nat.

(** [viewer.scene]: the particle systems that were created (the store), the
    references [scene.primitives] holds, in order, and the flights asked of
    [scene.camera]. *)
Record Scene : Type := mkScene {
  store : list ParticleSystem.t;
  primitives : list ref;
  camera : list FlyTo
}.

(** An instance of the class; [particleSystem] is [null] ([None]) or a
    reference to the live emitter. *)
Record ParticleHeatMap : Type := mkParticleHeatMap {
  renderOptions : Required.t;
  particleSystem : option ref;
  rectangle : Rectangle.t;
  data : list (list float);
  scene : Scene
}.

Definition particleParticleSize : float := 12.0.

(** [primitives.add(p)] *)
Definition primitives_add (p : ref) (s : Scene) : Scene :=
  mkScene (store s) (primitives s ++ [p]) (camera s).

(** [array.splice(array.indexOf(r), 1)] when [r] occurs in the array. *)
Fixpoint remove_first (r : ref) (l : list ref) : list ref :=
  match l with
  | [] => []
  | q :: l' => if Nat.eqb q r then l' else q :: remove_first r l'
  end.

(** An assignment to a property of the object behind a reference. *)
Fixpoint modify (r : ref) (f : ParticleSystem.t -> ParticleSystem.t)
  (l : list ParticleSystem.t) : list ParticleSystem.t :=
  match l, r with
  | [], _ => []
  | p :: l', O => f p :: l'
  | p :: l', S r' => p :: modify r' f l'
  end.

(** [primitives.remove(p)]: the collection drops [p] when it holds it, and
    destroys it (the scene's collection owns its primitives); it does
    nothing for [null] or for an object it does not hold. *)
Definition primitives_remove (p : option ref) (s : Scene) : Scene :=
  match p with
  | Some r =>
      if existsb (Nat.eqb r) (primitives s)
      then mkScene (modify r ParticleSystem.destroy (store s))
             (remove_first r (primitives s)) (camera s)
      else s
  | None => s
  end.

(** [new ParticleSystem(...)]: a fresh object in the store. *)
Definition allocate (p : ParticleSystem.t) (s : Scene) : ref * Scene :=
  (List.length (store s), mkScene (store s ++ [p]) (primitives s) (camera s)).

Definition assign (r : ref) (f : ParticleSystem.t -> ParticleSystem.t) (s : Scene) : Scene :=
  mkScene (modify r f (store s)) (primitives s) (camera s).

Definition with_scene (s : Scene) (this : ParticleHeatMap) : ParticleHeatMap :=
  mkParticleHeatMap (renderOptions this) (particleSystem this) (rectangle this) (data this) s.

(** The object behind the instance's emitter reference, when there is one. *)
Definition emitter_of (this : ParticleHeatMap) : option ParticleSystem.t :=
  match particleSystem this with
  | Some r => nth_error (store (scene this)) r
  | None => None
  end.

(** ** The class *)

(** [constructor(viewer, options)] *)
Definition new_ParticleHeatMap (viewer_scene : Scene) (options : ParticleHeatMapOptions)
  : ParticleHeatMap :=
  {| renderOptions :=
       match options_renderOptions options with
       | Some o => Required.spread defaultOptions o
       | None => defaultOptions
       end;
     particleSystem := None;
     rectangle := options_rectangle options;
     data := options_data options;
     scene := viewer_scene |}.

(** [get center()]: longitude and latitude of the rectangle's centre. *)
Definition center (this : ParticleHeatMap) : float * float :=
  let r := rectangle this in
  let lon := Rectangle.west r + Rectangle.width r / 2 in
  let lon := if JS.PI <? lon then lon - CMath.TWO_PI else lon in
  let lat := Rectangle.south r + Rectangle.height r / 2 in
  (lon, lat).

(** The longitude offset of the callback: [longitude - west], plus a full
    turn when the longitude is negative and the western edge positive. *)
Definition lonGap (r : Rectangle.t) (longitude : float) : float :=
  let lonGap := longitude - Rectangle.west r in
  if (longitude <? 0) && (0 <? Rectangle.west r) then lonGap + JS.PI * 2 else lonGap.

(** The grid cell of a geographic position: [posX] and [posY] of the
    callback.  Reading [this.data[0].length] throws when the grid has no
    first row. *)
Definition gridIndex (this : ParticleHeatMap) (c : Cartographic.t) : JS.result (Z * Z) :=
  match JS.index (data this) 0 with
  | None => JS.Throw (JS.TypeError "Cannot read properties of undefined (reading 'length')")
  | Some row0 =>
      let width := JS.length row0 in
      let height := JS.length (data this) in
      let r := rectangle this in
      let lonWidth := Rectangle.width r in
      let latWidth := Rectangle.height r in
      let posX :=
        JS.double_tilde
          (JS.abs (lonGap r (Cartographic.longitude c) / lonWidth) * width) in
      let posY :=
        JS.double_tilde
          (JS.abs ((Rectangle.north r - Cartographic.latitude c) / latWidth) * height) in
      JS.Ok (posX, posY)
  end.

(** [this.data[posY]?.[posX]] *)
Definition sample (this : ParticleHeatMap) (posX posY : Z) : option float :=
  match JS.index (data this) posY with
  | Some row => JS.index row posX
  | None => None
  end.

(** The particle after [particle.startColor.alpha = 0]. *)
Definition clear_start_alpha (p : Particle.t) : Particle.t :=
  {| Particle.mass := Particle.mass p;
     Particle.position := Particle.position p;
     Particle.velocity := Particle.velocity p;
     Particle.life := Particle.life p;
     Particle.image := Particle.image p;
     Particle.startColor := Color.withAlpha (Particle.startColor p) 0;
     Particle.endColor := Particle.endColor p;
     Particle.startScale := Particle.startScale p;
     Particle.endScale := Particle.endScale p;
     Particle.imageSize := Particle.imageSize p |}.

(** The particle after the three assignments of the no-data branch. *)
Definition neutralize (p : Particle.t) : Particle.t :=
  {| Particle.mass := Particle.mass p;
     Particle.position := Particle.position p;
     Particle.velocity := Particle.velocity p;
     Particle.life := Particle.life p;
     Particle.image := None;
     Particle.startColor := Color.withAlpha (Particle.startColor p) 0;
     Particle.endColor :=
       match Particle.endColor p with
       | Some c => Some (Color.withAlpha c 0)
       | None => None
       end;
     Particle.startScale := Particle.startScale p;
     Particle.endScale := Particle.endScale p;
     Particle.imageSize := Particle.imageSize p |}.

(** The particle after the velocity and end-colour assignments. *)
Definition perturb (velocity : Cartesian3.t) (endColor : option Color.t) (p : Particle.t)
  : Particle.t :=
  {| Particle.mass := Particle.mass p;
     Particle.position := Particle.position p;
     Particle.velocity := velocity;
     Particle.life := Particle.life p;
     Particle.image := Particle.image p;
     Particle.startColor := Particle.startColor p;
     Particle.endColor := endColor;
     Particle.startScale := Particle.startScale p;
     Particle.endScale := Particle.endScale p;
     Particle.imageSize := Particle.imageSize p |}.

Section Program.

Context {engine : Cesium}.

(** [particleCallback(particle, dt)]: the particle as the call leaves it,
    and the exception that ended the call, if any.  [renderOptions] has a
    [scale], so [scale ?? 1] is that scale.  In the no-data branch
    [particle.endColor.alpha = 0] throws when the end colour is
    [undefined], after the start alpha has been written. *)
Definition particleCallback_steps
  (this : ParticleHeatMap) (particle : Particle.t) (dt : float)
  : Particle.t * option JS.Exception :=
  match particleSystem this with
  | None => (particle, None)
  | Some _ =>
      match cartesianToCartographic (Particle.position particle) with
      | JS.Throw e => (particle, Some e)
      | JS.Ok None =>
          (particle,
           Some (JS.TypeError "Cannot destructure property 'longitude' of undefined"))
      | JS.Ok (Some cartographic) =>
          let upColor := Required.upColor (renderOptions this) in
          let downColor := Required.downColor (renderOptions this) in
          match gridIndex this cartographic with
          | JS.Throw e => (particle, Some e)
          | JS.Ok (posX, posY) =>
              let value := sample this posX posY in
              if JS.isNaN value then
                match Particle.endColor particle with
                | None =>
                    (clear_start_alpha particle,
                     Some (JS.TypeError
                             "Cannot set properties of undefined (setting 'alpha')"))
                | Some _ => (neutralize particle, None)
                end
              else
                let value := JS.ToNumber value in
                let particleGravityScratch :=
                  Cartesian3.normalize (Particle.position particle) in
                let particleGravityScratch :=
                  Cartesian3.multiplyByScalar particleGravityScratch
                    (value * 10 * Required.scale (renderOptions this)) in
                let velocity :=
                  Cartesian3.add (Particle.velocity particle) particleGravityScratch in
                let endColor :=
                  if 0 <? value then Color_fromCssColorString upColor
                  else Color_fromCssColorString downColor in
                (perturb velocity endColor particle, None)
          end
      end
  end.

Definition particleCallback (this : ParticleHeatMap) (particle : Particle.t) (dt : float)
  : JS.result Particle.t :=
  JS.completed (particleCallback_steps this particle dt).

(** [resetCamera(duration = 1)] *)
Definition resetCamera (duration : float) (this : ParticleHeatMap) : ParticleHeatMap :=
  let lonWidth := Rectangle.width (rectangle this) in
  let latWidth := Rectangle.height (rectangle this) in
  let height :=
    CMath.toDegrees (JS.max lonWidth latWidth) * 80000
    + Required.height (renderOptions this) in
  let flight :=
    {| destination :=
         Cartesian3_fromRadians (fst (center this)) (snd (center this) - latWidth * 1.5) height;
       heading := CMath.toRadians 0;
       pitch := CMath.toRadians (-35);
       roll := CMath.toRadians 0;
       duration := duration |} in
  let s := scene this in
  with_scene (mkScene (store s) (primitives s) (camera s ++ [flight])) this.

(** The options [init] passes to [new ParticleSystem], given the parsed
    start colour. *)
Definition init_options (this : ParticleHeatMap) (parsed : Color.t)
  : ParticleSystem.Options.t :=
  let r := rectangle this in
  let o := renderOptions this in
  let lonDistance :=
    Cartesian3.distance
      (Cartesian3_fromRadians (Rectangle.west r) (Rectangle.north r) 0)
      (Cartesian3_fromRadians (Rectangle.east r) (Rectangle.north r) 0) in
  let latDistance :=
    Cartesian3.distance
      (Cartesian3_fromRadians (Rectangle.west r) (Rectangle.north r) 0)
      (Cartesian3_fromRadians (Rectangle.west r) (Rectangle.south r) 0) in
  {| ParticleSystem.Options.image := "/smoke.png";
     ParticleSystem.Options.minimumSpeed := 0.0;
     ParticleSystem.Options.maximumSpeed := Required.maximumSpeed o;
     ParticleSystem.Options.startScale := 0.5;
     ParticleSystem.Options.endScale := Required.endScale o;
     ParticleSystem.Options.emissionRate := Required.emissionRate o;
     ParticleSystem.Options.emitter := Cartesian3.mk lonDistance latDistance 1;
     ParticleSystem.Options.imageSize := Some (Cartesian2.mk 25.0 25.0);
     ParticleSystem.Options.modelMatrix :=
       Transforms_eastNorthUpToFixedFrame
         (Cartesian3_fromRadians (fst (center this)) (snd (center this)) (Required.height o));
     ParticleSystem.Options.minimumParticleLife := 1.0;
     ParticleSystem.Options.lifetime := Required.lifetime o;
     ParticleSystem.Options.startColor := Color.withAlpha parsed 0;
     ParticleSystem.Options.minimumImageSize :=
       Cartesian2.mk particleParticleSize particleParticleSize;
     ParticleSystem.Options.maximumImageSize :=
       Cartesian2.mk (particleParticleSize * 2.0) (particleParticleSize * 2.0);
     ParticleSystem.Options.updateCallback := particleCallback_bound |}.

(** [init(resetCamera = false)]: the instance as the call leaves it, and
    the exception that ended the call, if any.  The camera is reset first;
    [Color.fromCssColorString(startColor).withAlpha(0)] throws when the
    string is not a colour, before the particle system is constructed. *)
Definition init_steps (reset : bool) (this : ParticleHeatMap)
  : ParticleHeatMap * option JS.Exception :=
  let this := if reset then resetCamera 1 this else this in
  match Color_fromCssColorString (Required.startColor (renderOptions this)) with
  | None =>
      (this, Some (JS.TypeError "Cannot read properties of undefined (reading 'withAlpha')"))
  | Some parsed =>
      let '(p, s) := allocate (ParticleSystem.new (init_options this parsed)) (scene this) in
      (mkParticleHeatMap (renderOptions this) (Some p) (rectangle this) (data this)
         (primitives_add p s),
       None)
  end.

Definition init (reset : bool) (this : ParticleHeatMap) : JS.result ParticleHeatMap :=
  JS.completed (init_steps reset this).

(** [update(options)]: the instance as the call leaves it, and the
    exception that ended the call, if any.  The six values are read from
    [this.renderOptions] before [options] is merged into it; as
    [renderOptions] has every key, each [!== undefined] test passes and each
    assignment is attempted, in the order of the source.  The start colour
    is parsed after the merged options are stored and the emission rate is
    assigned; [.withAlpha(0)] throws when the string is not a colour. *)
Definition update_steps (options : RenderOptions.t) (this : ParticleHeatMap)
  : ParticleHeatMap * option JS.Exception :=
  match particleSystem this with
  | Some p =>
      let emissionRate := Required.emissionRate (renderOptions this) in
      let lifetime := Required.lifetime (renderOptions this) in
      let startColor := Required.startColor (renderOptions this) in
      let maximumSpeed := Required.maximumSpeed (renderOptions this) in
      let endScale := Required.endScale (renderOptions this) in
      let height := Required.height (renderOptions this) in
      let merged := Required.spread (renderOptions this) options in
      let s := scene this in
      let s := assign p (ParticleSystem.set_emissionRate emissionRate) s in
      match Color_fromCssColorString startColor with
      | None =>
          (mkParticleHeatMap merged (Some p) (rectangle this) (data this) s,
           Some (JS.TypeError "Cannot read properties of undefined (reading 'withAlpha')"))
      | Some parsed =>
          let s := assign p (ParticleSystem.set_startColor (Color.withAlpha parsed 0)) s in
          let s := assign p (ParticleSystem.set_maximumSpeed maximumSpeed) s in
          let s := assign p (ParticleSystem.set_endScale endScale) s in
          let s := assign p (ParticleSystem.set_lifetime lifetime) s in
          let s :=
            assign p
              (ParticleSystem.set_modelMatrix
                 (Transforms_eastNorthUpToFixedFrame
                    (Cartesian3_fromRadians (fst (center this)) (snd (center this)) height)))
              s in
          (mkParticleHeatMap merged (Some p) (rectangle this) (data this) s, None)
      end
  | None => (this, None)
  end.

Definition update (options : RenderOptions.t) (this : ParticleHeatMap)
  : JS.result ParticleHeatMap :=
  JS.completed (update_steps options this).

(** [switchShow(show)] *)
Definition switchShow (show : bool) (this : ParticleHeatMap) : JS.result ParticleHeatMap :=
  match particleSystem this with
  | Some p => JS.Ok (with_scene (assign p (ParticleSystem.set_show show) (scene this)) this)
  | None => JS.Throw (JS.Error "have not initializated")
  end.

(** [clear()] *)
Definition clear (this : ParticleHeatMap) : JS.result ParticleHeatMap :=
  let s := primitives_remove (particleSystem this) (scene this) in
  JS.Ok (mkParticleHeatMap (renderOptions this) None (rectangle this) (data this) s).

End Program.


(** ** A small engine, to run the program on concrete inputs

    A position is its own (longitude, latitude, height) triple, the local
    frame at a point is the translation to it, and the colour parser knows
    the three default colours and no other string. *)

Module Flat.

Definition fromRadians (longitude latitude height : float) : Cartesian3.t :=
  Cartesian3.mk longitude latitude height.

Definition eastNorthUpToFixedFrame (origin : Cartesian3.t) : Matrix4 :=
  [1; 0; 0; 0;  0; 1; 0; 0;  0; 0; 1; 0;
   Cartesian3.x origin; Cartesian3.y origin; Cartesian3.z origin; 1].

Definition fromCssColorString (css : string) : option Color.t :=
  if String.eqb css "rgba(0, 247, 255, 1)" then Some (Color.mk 0 (247 / 255) 1 1)
  else if String.eqb css "rgba(255, 255, 0, 1)" then Some (Color.mk 1 1 0 1)
  else if String.eqb css "rgba(0, 0, 255, 1)" then Some (Color.mk 0 0 1 1)
  else None.

(** The projection throws on a position that is not a number, as the
    engine's checks do, and has no result at the origin. *)
Definition toCartographic (c : Cartesian3.t) : JS.result (option Cartographic.t) :=
  if is_nan (Cartesian3.x c) || is_nan (Cartesian3.y c) || is_nan (Cartesian3.z c)
  then JS.Throw (JS.DeveloperError "normalized result is not a number")
  else if (Cartesian3.x c =? 0) && (Cartesian3.y c =? 0) && (Cartesian3.z c =? 0)
  then JS.Ok None
  else JS.Ok (Some (Cartographic.mk (Cartesian3.x c) (Cartesian3.y c) (Cartesian3.z c))).

#[local] Instance engine : Cesium :=
  {| Cartesian3_fromRadians := fromRadians;
     Transforms_eastNorthUpToFixedFrame := eastNorthUpToFixedFrame;
     Color_fromCssColorString := fromCssColorString;
     cartesianToCartographic := toCartographic |}.

(** A scene with nothing in it. *)
Definition empty_scene : Scene := mkScene [] [] [].

(** The options of [index.ts], over a fixed 2x2 grid. *)
Definition demo_options : ParticleHeatMapOptions :=
  {| options_rectangle := Rectangle.fromDegrees 115 55 120 60;
     options_data := [[0.5; -0.25]; [nan; 0]];
     options_renderOptions :=
       Some (RenderOptions.mk (Some 3000) None None None None None None None (Some 10000)) |}.

Definition demo : ParticleHeatMap := new_ParticleHeatMap empty_scene demo_options.

(** A particle of the demo emitter, at a given longitude and latitude. *)
Definition particle_at (longitude latitude : float) : Particle.t :=
  {| Particle.mass := 1;
     Particle.position := fromRadians longitude latitude 10000;
     Particle.velocity := Cartesian3.mk 0 0 1;
     Particle.life := 12;
     Particle.image := Some "/smoke.png"%string;
     Particle.startColor := Color.mk 0 (247 / 255) 1 0;
     Particle.endColor := Some (Color.mk 1 1 1 1);
     Particle.startScale := 0.5;
     Particle.endScale := 1;
     Particle.imageSize := Cartesian2.mk 12 12 |}.

(** [this] after [this.init()]. *)
Definition started (this : ParticleHeatMap) : ParticleHeatMap :=
  match init false this with
  | JS.Ok this' => this'
  | JS.Throw _ => this
  end.

(** The demo instance once initialised. *)
Definition live : ParticleHeatMap := started demo.

End Flat.

(** ** Predicates of the specification, and the inputs it is evaluated on *)

(** In a well-formed scene the collection only holds objects of the store. *)
Definition well_formed (s : Scene) : Prop :=
  Forall (fun r => (r < List.length (store s))%nat) (primitives s).

(** The cell ([posX], [posY]) exists: the row index is within the rows and
    the column index within that row. *)
Definition in_bounds (this : ParticleHeatMap) (posX posY : Z) : bool :=
  (0 <=? posY)%Z
  && (posY <? Z.of_nat (List.length (data this)))%Z
  && (0 <=? posX)%Z
  && (posX <? Z.of_nat (List.length (nth (Z.to_nat posY) (data this) [])))%Z.

(** A rectangle's extent reaches a longitude when the rectangle from the
    same western edge to that longitude is no wider than the rectangle. *)
Definition covers_longitude (r : Rectangle.t) (longitude : float) : bool :=
  Rectangle.width
    (Rectangle.mk (Rectangle.west r) (Rectangle.south r) longitude (Rectangle.north r))
  <=? Rectangle.width r.

(** The two quotients of the index computation. *)
Definition lonRatio (this : ParticleHeatMap) (c : Cartographic.t) : float :=
  JS.abs (lonGap (rectangle this) (Cartographic.longitude c)
          / Rectangle.width (rectangle this)).

Definition latRatio (this : ParticleHeatMap) (c : Cartographic.t) : float :=
  JS.abs ((Rectangle.north (rectangle this) - Cartographic.latitude c)
          / Rectangle.height (rectangle this)).

(** The position whose longitude and latitude are [this.center]. *)
Definition at_center (this : ParticleHeatMap) (height : float) : Cartographic.t :=
  Cartographic.mk (fst (center this)) (snd (center this)) height.

(** The two quotients at the centre, written in the rectangle's bounds:
    the longitude and latitude of [get center()] put through the quotients
    of the index computation. *)
Definition centerLonRatio (r : Rectangle.t) : float :=
  let lon := Rectangle.west r + Rectangle.width r / 2 in
  let lon := if JS.PI <? lon then lon - CMath.TWO_PI else lon in
  JS.abs (lonGap r lon / Rectangle.width r).

Definition centerLatRatio (r : Rectangle.t) : float :=
  JS.abs ((Rectangle.north r - (Rectangle.south r + Rectangle.height r / 2))
          / Rectangle.height r).

(** A quotient that is one half, or above it by at most 2^-34. *)
Definition half_or_just_above (q : float) : bool :=
  (0.5 <=? q) && (q <=? 0x1.000000008p-1).

(** A quotient that is below one half by at most 2^-34. *)
Definition just_below_half (q : float) : bool :=
  (0x1.ffffffffp-2 <=? q) && (q <? 0.5).

(** An instance with the default options (placement height 1000), started. *)
Definition default_live : ParticleHeatMap :=
  Flat.started
    (new_ParticleHeatMap Flat.empty_scene
       {| options_rectangle := Rectangle.fromDegrees 115 55 120 60;
          options_data := [[0.5; -0.25]; [nan; 0]];
          options_renderOptions := None |}).

(** [{ height: h }] *)
Definition only_height (h : float) : RenderOptions.t :=
  RenderOptions.mk None None None None None None None None (Some h).

(** [{ emissionRate: n }] *)
Definition only_emissionRate (n : float) : RenderOptions.t :=
  RenderOptions.mk (Some n) None None None None None None None None.



(** A position over the demo rectangle, given in degrees; the demo grid is
    [[0.5, -0.25], [NaN, 0]] over 115..120 degrees east, 55..60 north. *)
Definition degrees (longitude latitude : float) : Cartographic.t :=
  Cartographic.mk (CMath.toRadians longitude) (CMath.toRadians latitude) 10000.

(** A particle at such a position. *)
Definition particle_over (longitude latitude : float) : Particle.t :=
  Flat.particle_at (CMath.toRadians longitude) (CMath.toRadians latitude).

(** A 2x2 grid over 115..120 degrees east, 60..61 degrees north. *)
Definition narrow_band : ParticleHeatMap :=
  new_ParticleHeatMap Flat.empty_scene
    {| options_rectangle := Rectangle.fromDegrees 115 60 120 61;
       options_data := [[1; 2]; [3; 4]];
       options_renderOptions := None |}.

(** The instance and its scene agree: the collection holds objects of the
    store, each once, and the emitter reference, when there is one, names an
    object of the store that the collection holds. *)
Definition consistent (this : ParticleHeatMap) : Prop :=
  well_formed (scene this)
  /\ NoDup (primitives (scene this))
  /\ forall p, particleSystem this = Some p ->
       (p < List.length (store (scene this)))%nat /\ In p (primitives (scene this)).

(** The live emitter shows the stored options: the six properties [update]
    assigns have the values computed from [renderOptions]. *)
Definition in_sync {engine : Cesium} (this : ParticleHeatMap) : Prop :=
  exists e,
    emitter_of this = Some e
    /\ ParticleSystem.emissionRate e = Required.emissionRate (renderOptions this)
    /\ (exists parsed,
          Color_fromCssColorString (Required.startColor (renderOptions this)) = Some parsed
          /\ ParticleSystem.startColor e = Color.withAlpha parsed 0)
    /\ ParticleSystem.maximumSpeed e = Required.maximumSpeed (renderOptions this)
    /\ ParticleSystem.endScale e = Required.endScale (renderOptions this)
    /\ ParticleSystem.lifetime e = Required.lifetime (renderOptions this)
    /\ ParticleSystem.modelMatrix e
       = Transforms_eastNorthUpToFixedFrame
           (Cartesian3_fromRadians (fst (center this)) (snd (center this))
              (Required.height (renderOptions this))).

(** ** The demo script, [index.ts] *)

(** [Math.random]: the draws of a run, in order. *)
Definition RandomSource : Type := nat -> float.

Section Demo.

Variable random : RandomSource.

(** The inner loop of [generateMatrixData]: [y] more values are pushed on
    [col]; [next] counts the draws made so far. *)
Fixpoint fill_col (y : nat) (col : list float) (next : nat) : list float * nat :=
  match y with
  | O => (col, next)
  | S y' => fill_col y' (col ++ [random next * 2 - 1]) (S next)
  end.

(** The outer loop: [x] more rows of [y] values are pushed on [data]. *)
Fixpoint fill_data (x y : nat) (data : list (list float)) (next : nat)
  : list (list float) * nat :=
  match x with
  | O => (data, next)
  | S x' =>
      let '(col, next') := fill_col y [] next in
      fill_data x' y (data ++ [col]) next'
  end.

(** [generateMatrixData(x, y)] for natural numbers [x] and [y], from the
    draw [next] on: the matrix, and the number of draws made. *)
Definition generateMatrixData (x y : nat) (next : nat) : list (list float) * nat :=
  fill_data x y [] next.

Context {engine : Cesium}.

(** The script: the instance over the viewer's scene, then [init(true)]. *)
Definition particleHeatMapObj (viewer_scene : Scene) : ParticleHeatMap :=
  new_ParticleHeatMap viewer_scene
    {| options_rectangle := Rectangle.fromDegrees 115 55 120 60;
       options_data := fst (generateMatrixData 10 10 0);
       options_renderOptions :=
         Some (RenderOptions.mk (Some 3000) None None None None None None None (Some 10000)) |}.

Definition script (viewer_scene : Scene) : JS.result ParticleHeatMap :=
  init true (particleHeatMapObj viewer_scene).

End Demo.

(** A run whose n-th draw is n/16 modulo 1. *)
Definition sixteenths : RandomSource :=
  fun n => of_uint63 (Uint63.of_Z (Z.of_nat (n mod 16))) / 16.

(** Closed goals on concrete inputs are settled by evaluation. *)
Ltac evaluate := vm_compute; reflexivity.

(** ** Lemmas on the store and the collection *)

Lemma nth_error_modify (r : ref) (f : ParticleSystem.t -> ParticleSystem.t)
  (l : list ParticleSystem.t) :
  nth_error (modify r f l) r = option_map f (nth_error l r).
Proof.
  revert r; induction l as [|p l IH]; intros [|r]; simpl; auto.
Qed.

Lemma length_modify (r : ref) (f : ParticleSystem.t -> ParticleSystem.t)
  (l : list ParticleSystem.t) :
  List.length (modify r f l) = List.length l.
Proof.
  revert r; induction l as [|p l IH]; intros [|r]; simpl; auto.
Qed.

Lemma remove_first_fresh (r : ref) (l : list ref) :
  ~ In r l -> remove_first r (l ++ [r]) = l.
Proof.
  induction l as [|q l IH]; simpl; intros H.
  - now rewrite Nat.eqb_refl.
  - destruct (Nat.eqb_spec q r) as [->|_].
    + exfalso; apply H; now left.
    + f_equal; apply IH; intros Hin; apply H; now right.
Qed.

Lemma remove_first_absent (r : ref) (l : list ref) :
  ~ In r l -> remove_first r l = l.
Proof.
  induction l as [|q l IH]; simpl; intros H; auto.
  destruct (Nat.eqb_spec q r) as [->|_].
  - exfalso; apply H; now left.
  - f_equal; apply IH; intros Hin; apply H; now right.
Qed.

Lemma existsb_In (r : ref) (l : list ref) :
  existsb (Nat.eqb r) l = true <-> In r l.
Proof.
  rewrite existsb_exists; split.
  - intros (x & Hx & E); apply Nat.eqb_eq in E; now subst.
  - intros H; exists r; split; [exact H|apply Nat.eqb_refl].
Qed.

Lemma existsb_fresh_last (r : ref) (l : list ref) :
  existsb (Nat.eqb r) (l ++ [r]) = true.
Proof.
  apply existsb_In, in_or_app; right; now left.
Qed.

Lemma well_formed_fresh (s : Scene) :
  well_formed s -> ~ In (List.length (store s)) (primitives s).
Proof.
  unfold well_formed; rewrite Forall_forall; intros H Hin.
  specialize (H _ Hin); lia.
Qed.

Section Lifecycle.

Context {engine : Cesium}.

Lemma resetCamera_fields (d : float) (this : ParticleHeatMap) :
  renderOptions (resetCamera d this) = renderOptions this
  /\ particleSystem (resetCamera d this) = particleSystem this
  /\ rectangle (resetCamera d this) = rectangle this
  /\ data (resetCamera d this) = data this
  /\ store (scene (resetCamera d this)) = store (scene this)
  /\ primitives (scene (resetCamera d this)) = primitives (scene this).
Proof.
  unfold resetCamera, with_scene; simpl; repeat split.
Qed.

(** The instance [init] works on once the camera is dealt with. *)
Lemma camera_done_fields (reset : bool) (this : ParticleHeatMap) :
  let done := if reset then resetCamera 1 this else this in
  renderOptions done = renderOptions this
  /\ particleSystem done = particleSystem this
  /\ rectangle done = rectangle this
  /\ data done = data this
  /\ store (scene done) = store (scene this)
  /\ primitives (scene done) = primitives (scene this).
Proof.
  destruct reset; [exact (resetCamera_fields _ this)|repeat split].
Qed.

(** With a start colour that parses [init] returns: it allocates a particle
    system, makes it the instance's emitter and adds it at the end of the
    collection. *)
Lemma init_returns (reset : bool) (this : ParticleHeatMap) (parsed : Color.t) :
  Color_fromCssColorString (Required.startColor (renderOptions this)) = Some parsed ->
  exists this',
    init reset this = JS.Ok this'
    /\ particleSystem this' = Some (List.length (store (scene this)))
    /\ store (scene this')
       = store (scene this)
         ++ [ParticleSystem.new (init_options ((if reset then resetCamera 1 this else this)) parsed)]
    /\ primitives (scene this')
       = primitives (scene this) ++ [List.length (store (scene this))]
    /\ renderOptions this' = renderOptions this
    /\ rectangle this' = rectangle this
    /\ data this' = data this.
Proof.
  intros Hc; unfold init, init_steps.
  destruct (camera_done_fields reset this) as (Ho & _ & Hr & Hd & Hs & Hp).
  rewrite Ho, Hc; unfold allocate, primitives_add; simpl.
  eexists; split; [reflexivity|]; simpl.
  rewrite Hs, Hp; repeat split; auto.
Qed.

(** With a start colour that does not parse [init] throws a [TypeError];
    it leaves the instance as the camera reset left it. *)
Lemma init_throws (reset : bool) (this : ParticleHeatMap) :
  Color_fromCssColorString (Required.startColor (renderOptions this)) = None ->
  init_steps reset this
  = ((if reset then resetCamera 1 this else this),
     Some (JS.TypeError "Cannot read properties of undefined (reading 'withAlpha')")).
Proof.
  intros Hc; unfold init_steps.
  destruct (camera_done_fields reset this) as (Ho & _).
  now rewrite Ho, Hc.
Qed.

(** What a returning [init] has done. *)
Lemma init_inversion (reset : bool) (this this' : ParticleHeatMap) :
  init reset this = JS.Ok this' ->
  exists parsed,
    Color_fromCssColorString (Required.startColor (renderOptions this)) = Some parsed
    /\ particleSystem this' = Some (List.length (store (scene this)))
    /\ store (scene this')
       = store (scene this)
         ++ [ParticleSystem.new (init_options ((if reset then resetCamera 1 this else this)) parsed)]
    /\ primitives (scene this')
       = primitives (scene this) ++ [List.length (store (scene this))]
    /\ renderOptions this' = renderOptions this
    /\ rectangle this' = rectangle this
    /\ data this' = data this.
Proof.
  intros H.
  destruct (Color_fromCssColorString (Required.startColor (renderOptions this)))
    as [parsed|] eqn:Hc.
  - destruct (init_returns reset this parsed Hc) as (t & E & F).
    rewrite H in E; injection E as <-; eauto.
  - unfold init in H; rewrite (init_throws reset this Hc) in H; discriminate.
Qed.

End Lifecycle.

(** ** The lifecycle: [init], [clear], [switchShow] *)

Section LifecycleSpec.

Context {engine : Cesium}.


(** C8: [clear] never throws and leaves the instance without an emitter
    reference, as a freshly constructed instance is; a second [clear] does
    not throw either and changes nothing.  After an [init] that returned,
    then [clear], on a fresh instance the options, rectangle and grid are
    those of the fresh instance, and so is the collection of a well-formed
    scene. *)
Theorem clear_idempotent (this : ParticleHeatMap) (reset : bool)
  (viewer_scene : Scene) (options : ParticleHeatMapOptions) :
  (exists this1,
     clear this = JS.Ok this1
     /\ clear this1 = JS.Ok this1
     /\ particleSystem this1 = None
     /\ particleSystem this1 = particleSystem (new_ParticleHeatMap viewer_scene options))
  /\ (let fresh := new_ParticleHeatMap viewer_scene options in
      forall this1,
        init reset fresh = JS.Ok this1 ->
        exists this2,
          clear this1 = JS.Ok this2
          /\ clear this2 = JS.Ok this2
          /\ particleSystem this2 = particleSystem fresh
          /\ renderOptions this2 = renderOptions fresh
          /\ rectangle this2 = rectangle fresh
          /\ data this2 = data fresh
          /\ (well_formed viewer_scene ->
              primitives (scene this2) = primitives (scene fresh))).
Proof.
  split.
  - eexists; unfold clear; simpl; repeat split.
  - intros fresh this1 Hi.
    destruct (init_inversion reset fresh this1 Hi) as (parsed & _ & Hn & Hs & Hc & Ho & Hr & Hd).
    eexists; split; [reflexivity|].
    unfold clear; simpl; rewrite Hn; simpl.
    repeat split; auto.
    intros Hwf; rewrite Hc, existsb_fresh_last; simpl.
    apply remove_first_fresh, well_formed_fresh; exact Hwf.
Qed.

(** C9: [switchShow(show)] throws [Error('have not initializated')] when the
    instance has no emitter, which is the case of a fresh instance and of an
    instance after [clear]; when it has one, the call returns and the
    emitter's [show] is the argument. *)
Theorem switchShow_requires_emitter (show : bool) (this : ParticleHeatMap) :
  (particleSystem this = None ->
   switchShow show this = JS.Throw (JS.Error "have not initializated"))
  /\ (forall viewer_scene options,
        switchShow show (new_ParticleHeatMap viewer_scene options)
        = JS.Throw (JS.Error "have not initializated"))
  /\ (forall cleared,
        clear this = JS.Ok cleared ->
        switchShow show cleared = JS.Throw (JS.Error "have not initializated"))
  /\ (forall p e,
        particleSystem this = Some p ->
        nth_error (store (scene this)) p = Some e ->
        exists this',
          switchShow show this = JS.Ok this'
          /\ particleSystem this' = Some p
          /\ emitter_of this' = Some (ParticleSystem.set_show show e)
          /\ ParticleSystem.show (ParticleSystem.set_show show e) = show).
Proof.
  repeat split.
  - intros H; unfold switchShow; now rewrite H.
  - intros cleared [= <-]; reflexivity.
  - intros p e Hp He; unfold switchShow; rewrite Hp.
    eexists; split; [reflexivity|].
    unfold emitter_of; simpl; rewrite Hp.
    repeat split.
    now rewrite nth_error_modify, He.
Qed.

(** C10: once [clear] has run, the callback returns at its first test for
    every particle: the particle comes back as it was passed, whatever the
    grid holds (even no row at all) and wherever the particle is. *)
Theorem stale_callback_is_inert
  (this cleared : ParticleHeatMap) (particle : Particle.t) (dt : float) :
  clear this = JS.Ok cleared ->
  particleCallback cleared particle dt = JS.Ok particle
  /\ forall grid r,
       particleCallback
         (mkParticleHeatMap (renderOptions cleared) (particleSystem cleared) r grid
            (scene cleared)) particle dt
       = JS.Ok particle.
Proof.
  intros [= <-]; split; reflexivity.
Qed.

(** What [update] assigns to the live emitter when the stored start colour
    parses: the values [renderOptions] held before the call, whatever
    [options] holds. *)
Lemma update_pushes_previous_options
  (options : RenderOptions.t) (this : ParticleHeatMap) (p : ref) (e : ParticleSystem.t)
  (parsed : Color.t) :
  particleSystem this = Some p ->
  nth_error (store (scene this)) p = Some e ->
  Color_fromCssColorString (Required.startColor (renderOptions this)) = Some parsed ->
  exists this',
    update options this = JS.Ok this'
    /\ renderOptions this' = Required.spread (renderOptions this) options
    /\ particleSystem this' = Some p
    /\ exists e',
         emitter_of this' = Some e'
         /\ ParticleSystem.emissionRate e' = Required.emissionRate (renderOptions this)
         /\ ParticleSystem.maximumSpeed e' = Required.maximumSpeed (renderOptions this)
         /\ ParticleSystem.endScale e' = Required.endScale (renderOptions this)
         /\ ParticleSystem.lifetime e' = Required.lifetime (renderOptions this)
         /\ ParticleSystem.startColor e' = Color.withAlpha parsed 0
         /\ ParticleSystem.modelMatrix e'
            = Transforms_eastNorthUpToFixedFrame
                (Cartesian3_fromRadians (fst (center this)) (snd (center this))
                   (Required.height (renderOptions this)))
         /\ ParticleSystem.show e' = ParticleSystem.show e.
Proof.
  intros Hp He Hc; unfold update, update_steps; rewrite Hp, Hc; simpl.
  eexists; split; [reflexivity|]; simpl; repeat split.
  unfold emitter_of, assign; simpl.
  rewrite !nth_error_modify, He; simpl.
  eexists; split; [reflexivity|]; simpl; repeat split.
Qed.

(** With a stored start colour that does not parse, [update] on a live
    emitter throws a [TypeError]. *)
Lemma update_throws (options : RenderOptions.t) (this : ParticleHeatMap) (p : ref) :
  particleSystem this = Some p ->
  Color_fromCssColorString (Required.startColor (renderOptions this)) = None ->
  update_steps options this
  = (mkParticleHeatMap (Required.spread (renderOptions this) options) (Some p)
       (rectangle this) (data this)
       (assign p
          (ParticleSystem.set_emissionRate (Required.emissionRate (renderOptions this)))
          (scene this)),
     Some (JS.TypeError "Cannot read properties of undefined (reading 'withAlpha')")).
Proof.
  intros Hp Hc; unfold update_steps; now rewrite Hp, Hc.
Qed.

(** An [update] on an instance without an emitter changes nothing. *)
Lemma update_without_emitter (options : RenderOptions.t) (this : ParticleHeatMap) :
  particleSystem this = None -> update options this = JS.Ok this.
Proof.
  intros H; unfold update, update_steps; now rewrite H.
Qed.

End LifecycleSpec.



Lemma clear_idempotent_witness :
  (exists this1,
     clear Flat.live = JS.Ok this1
     /\ clear this1 = JS.Ok this1
     /\ particleSystem this1 = None
     /\ particleSystem this1 = particleSystem Flat.demo)
  /\ exists this1 this2,
       init (engine := Flat.engine) true Flat.demo = JS.Ok this1
       /\ clear this1 = JS.Ok this2
       /\ clear this2 = JS.Ok this2
       /\ particleSystem this2 = particleSystem Flat.demo
       /\ renderOptions this2 = renderOptions Flat.demo
       /\ rectangle this2 = rectangle Flat.demo
       /\ data this2 = data Flat.demo
       /\ primitives (scene this2) = primitives (scene Flat.demo).
Proof.
  destruct (clear_idempotent (engine := Flat.engine) Flat.live true Flat.empty_scene
              Flat.demo_options) as [H1 H2].
  split; [exact H1|].
  eexists.
  destruct (H2 _ eq_refl) as (this2 & Hc & Hc' & Hp & Ho & Hr & Hd & Hs).
  exists this2; split; [reflexivity|].
  repeat split; auto.
  apply Hs; constructor.
Defined.

Lemma switchShow_requires_emitter_witness :
  switchShow true Flat.demo = JS.Throw (JS.Error "have not initializated")
  /\ exists e,
       nth_error (store (scene Flat.live)) 0 = Some e
       /\ exists this',
            switchShow false Flat.live = JS.Ok this'
            /\ particleSystem this' = Some 0%nat
            /\ emitter_of this' = Some (ParticleSystem.set_show false e)
            /\ ParticleSystem.show (ParticleSystem.set_show false e) = false.
Proof.
  split.
  - apply (switchShow_requires_emitter true Flat.demo); reflexivity.
  - eexists; split; [reflexivity|].
    apply (proj2 (proj2 (proj2 (switchShow_requires_emitter false Flat.live))) 0%nat);
      reflexivity.
Defined.

Lemma stale_callback_witness :
  exists this1 cleared,
    init (engine := Flat.engine) false Flat.demo = JS.Ok this1
    /\ clear this1 = JS.Ok cleared
    /\ particleCallback (engine := Flat.engine) cleared (Flat.particle_at 2 1) 0.0625
       = JS.Ok (Flat.particle_at 2 1).
Proof.
  eexists; eexists.
  split; [reflexivity|].
  split; [reflexivity|].
  apply (stale_callback_is_inert (engine := Flat.engine) _ _ _ _ eq_refl).
Defined.

(** ** [update] on the live emitter *)

(** C2, evaluated: after [update({ height: 5000 })] on a started instance
    with the default options, the stored height is 5000 but the emitter's
    model matrix is the frame at height 1000, the height stored before the
    call, and not the frame at 5000.  Likewise [update({ emissionRate: 2000 })]
    leaves the emitter's rate at 1000, and it is the next call, a change of
    height only, that sets the emitter's rate to 2000. *)
Theorem update_height_pushes_previous_height :
  let c := center default_live in
  exists this2 e2,
    update (engine := Flat.engine) (only_height 5000) default_live = JS.Ok this2
    /\ Required.height (renderOptions this2) = 5000
    /\ emitter_of this2 = Some e2
    /\ ParticleSystem.modelMatrix e2
       = Flat.eastNorthUpToFixedFrame (Flat.fromRadians (fst c) (snd c) 1000)
    /\ ParticleSystem.modelMatrix e2
       <> Flat.eastNorthUpToFixedFrame (Flat.fromRadians (fst c) (snd c) 5000)
    /\ exists this3 e3 this4 e4,
         update (engine := Flat.engine) (only_emissionRate 2000) default_live = JS.Ok this3
         /\ emitter_of this3 = Some e3
         /\ ParticleSystem.emissionRate e3 = 1000
         /\ update (engine := Flat.engine) (only_height 5000) this3 = JS.Ok this4
         /\ emitter_of this4 = Some e4
         /\ ParticleSystem.emissionRate e4 = 2000.
Proof.
  intros c.
  eexists; eexists.
  split; [reflexivity|].
  split; [reflexivity|].
  split; [reflexivity|].
  split; [reflexivity|].
  split.
  - intros H.
    apply (f_equal (fun m => nth 14 m 0 <? 2000)) in H.
    vm_compute in H; discriminate H.
  - do 4 eexists.
    split; [reflexivity|].
    split; [reflexivity|].
    split; [reflexivity|].
    split; [reflexivity|].
    split; reflexivity.
Qed.

(** ** Numbers: comparisons with zero, and [~~] *)

Lemma Prim2SF_zero : Prim2SF 0 = S754_zero false.
Proof. reflexivity. Qed.

(** A number that is [<= 0] is not [> 0]. *)
Lemma leb_zero_not_positive (v : float) : (v <=? 0) = true -> (0 <? v) = false.
Proof.
  rewrite FloatAxioms.leb_spec, FloatAxioms.ltb_spec, Prim2SF_zero.
  destruct (Prim2SF v) as [s|s| |s m e]; try destruct s; cbn; congruence.
Qed.

(** A number equal to zero (either zero) is [<= 0]. *)
Lemma eqb_zero_leb (v : float) : (v =? 0) = true -> (v <=? 0) = true.
Proof.
  rewrite FloatAxioms.leb_spec, FloatAxioms.eqb_spec, Prim2SF_zero.
  destruct (Prim2SF v) as [s|s| |s m e]; try destruct s; cbn; congruence.
Qed.

(** A number that is not [NaN] is [> 0] or [<= 0]. *)
Lemma positive_or_leb_zero (v : float) :
  is_nan v = false -> (0 <? v) = true \/ (v <=? 0) = true.
Proof.
  unfold is_nan;
    rewrite FloatAxioms.leb_spec, FloatAxioms.ltb_spec, FloatAxioms.eqb_spec, Prim2SF_zero.
  destruct (Prim2SF v) as [s|s| |s m e]; try destruct s; cbn; auto; discriminate.
Qed.

Lemma wrap32_range (n : Z) : (- 2 ^ 31 <= JS.wrap32 n < 2 ^ 31)%Z.
Proof.
  unfold JS.wrap32.
  pose proof (Z.mod_pos_bound (n + 2 ^ 31) (2 ^ 32) eq_refl); lia.
Qed.

Lemma wrap32_small (n : Z) : (- 2 ^ 31 <= n < 2 ^ 31)%Z -> JS.wrap32 n = n.
Proof.
  intros H; unfold JS.wrap32.
  rewrite Z.mod_small; lia.
Qed.

(** [~~v] is [ToInt32(v)]: the two complements cancel. *)
Lemma double_tilde_ToInt32 (v : float) : JS.double_tilde v = JS.ToInt32 v.
Proof.
  unfold JS.double_tilde, JS.ToInt32.
  pose proof (wrap32_range (JS.truncate v)) as H.
  set (n := JS.wrap32 (JS.truncate v)) in *.
  rewrite (wrap32_small (Z.lnot n)) by (unfold Z.lnot; lia).
  rewrite Z.lnot_involutive; apply wrap32_small; exact H.
Qed.

(** ** The grid lookup *)

Lemma index_None {A : Type} (a : list A) (i : Z) :
  JS.index a i = None <-> (i < 0 \/ Z.of_nat (List.length a) <= i)%Z.
Proof.
  unfold JS.index; destruct (Z.ltb_spec i 0).
  - split; auto.
  - rewrite nth_error_None; lia.
Qed.

Lemma index_Some {A : Type} (a : list A) (i : Z) (d : A) :
  (0 <= i < Z.of_nat (List.length a))%Z -> JS.index a i = Some (nth (Z.to_nat i) a d).
Proof.
  intros H; unfold JS.index.
  destruct (Z.ltb_spec i 0); [lia|].
  apply nth_error_nth'; lia.
Qed.

(** Outside the grid the lookup is [undefined]; inside it is a number. *)
Lemma sample_out_of_bounds (this : ParticleHeatMap) (posX posY : Z) :
  in_bounds this posX posY = false -> sample this posX posY = None.
Proof.
  unfold in_bounds, sample; intros H.
  destruct (JS.index (data this) posY) as [row|] eqn:Er; auto.
  destruct (Z.leb_spec 0 posY); destruct (Z.ltb_spec posY (Z.of_nat (List.length (data this))));
    simpl in H; try (apply index_None in Er || (exfalso; revert Er; apply index_None)); try lia.
  - rewrite (index_Some _ _ []) in Er by lia; injection Er as <-.
    apply index_None.
    destruct (Z.leb_spec 0 posX); simpl in H; [|lia].
    destruct (Z.ltb_spec posX (Z.of_nat (List.length (nth (Z.to_nat posY) (data this) []))));
      [discriminate|lia].
  - assert (E : JS.index (data this) posY = None) by (apply index_None; lia).
    congruence.
  - assert (E : JS.index (data this) posY = None) by (apply index_None; lia).
    congruence.
Qed.

Lemma sample_in_bounds (this : ParticleHeatMap) (posX posY : Z) :
  in_bounds this posX posY = true -> exists v, sample this posX posY = Some v.
Proof.
  unfold in_bounds, sample; intros H.
  apply andb_prop in H as [H H4]; apply andb_prop in H as [H H3];
    apply andb_prop in H as [H1 H2].
  apply Z.leb_le in H1, H3; apply Z.ltb_lt in H2, H4.
  rewrite (index_Some _ _ []) by lia.
  rewrite (index_Some _ _ 0) by lia.
  eauto.
Qed.

(** ** The update callback *)

Section Callback.

Context {engine : Cesium}.

Variables (this : ParticleHeatMap) (particle : Particle.t) (dt : float).
Variables (p : ref) (cartographic : Cartographic.t) (posX posY : Z).

(** The instance has an emitter, the particle's position projects to
    [cartographic], and the grid cell of that position is ([posX], [posY]). *)
Hypothesis live : particleSystem this = Some p.
Hypothesis projected :
  cartesianToCartographic (Particle.position particle) = JS.Ok (Some cartographic).
Hypothesis resolved : gridIndex this cartographic = JS.Ok (posX, posY).

(** The callback past its first test, in terms of the sampled value. *)
Lemma particleCallback_live :
  particleCallback this particle dt
  = if JS.isNaN (sample this posX posY) then
      match Particle.endColor particle with
      | Some _ => JS.Ok (neutralize particle)
      | None =>
          JS.Throw (JS.TypeError "Cannot set properties of undefined (setting 'alpha')")
      end
    else
      let value := JS.ToNumber (sample this posX posY) in
      JS.Ok
        (perturb
           (Cartesian3.add (Particle.velocity particle)
              (Cartesian3.multiplyByScalar
                 (Cartesian3.normalize (Particle.position particle))
                 (value * 10 * Required.scale (renderOptions this))))
           (if 0 <? value
            then Color_fromCssColorString (Required.upColor (renderOptions this))
            else Color_fromCssColorString (Required.downColor (renderOptions this)))
           particle).
Proof.
  unfold particleCallback, particleCallback_steps; rewrite live, projected, resolved.
  destruct (JS.isNaN (sample this posX posY)); [|reflexivity].
  now destruct (Particle.endColor particle).
Qed.

(** C3: when the resolved index is outside the grid, or the cell holds
    [NaN], the callback on a particle that has an end colour returns (it
    does not throw) with the alpha of the start colour and of the end colour
    set to 0 and the image cleared; the velocity, like every other field, is
    as it was. *)
Theorem no_data_neutralizes_particle (endColor : Color.t) :
  Particle.endColor particle = Some endColor ->
  in_bounds this posX posY = false
  \/ (exists v, sample this posX posY = Some v /\ is_nan v = true) ->
  exists particle',
    particleCallback this particle dt = JS.Ok particle'
    /\ Color.alpha (Particle.startColor particle') = 0
    /\ (exists c, Particle.endColor particle' = Some c /\ Color.alpha c = 0)
    /\ Particle.image particle' = None
    /\ Particle.velocity particle' = Particle.velocity particle
    /\ particle' = neutralize particle.
Proof.
  intros Hc H.
  assert (E : JS.isNaN (sample this posX posY) = true).
  { destruct H as [H|(v & Hv & Hn)].
    - now rewrite (sample_out_of_bounds _ _ _ H).
    - now rewrite Hv. }
  exists (neutralize particle).
  rewrite particleCallback_live, E, Hc; repeat split.
  simpl; rewrite Hc; eexists; split; reflexivity.
Qed.

Variable v : float.

(** The cell exists and holds the number [v], which is not [NaN]. *)
Hypothesis sampled : sample this posX posY = Some v.
Hypothesis number : is_nan v = false.

Lemma particleCallback_sampled :
  particleCallback this particle dt
  = JS.Ok
      (perturb
         (Cartesian3.add (Particle.velocity particle)
            (Cartesian3.multiplyByScalar
               (Cartesian3.normalize (Particle.position particle))
               (v * 10 * Required.scale (renderOptions this))))
         (if 0 <? v
          then Color_fromCssColorString (Required.upColor (renderOptions this))
          else Color_fromCssColorString (Required.downColor (renderOptions this)))
         particle).
Proof.
  rewrite particleCallback_live, sampled; unfold JS.isNaN; simpl.
  now rewrite number.
Qed.

(** C4: for a sampled number [v], the end colour becomes the colour parsed
    from [upColor] when [v > 0] and the one parsed from [downColor] when
    [v <= 0]; a [v] equal to zero is in the second case.  One of the two
    cases always applies. *)
Theorem end_color_follows_sign :
  exists particle',
    particleCallback this particle dt = JS.Ok particle'
    /\ ((0 <? v) = true ->
        Particle.endColor particle'
        = Color_fromCssColorString (Required.upColor (renderOptions this)))
    /\ ((v <=? 0) = true ->
        Particle.endColor particle'
        = Color_fromCssColorString (Required.downColor (renderOptions this)))
    /\ ((v =? 0) = true ->
        Particle.endColor particle'
        = Color_fromCssColorString (Required.downColor (renderOptions this)))
    /\ ((0 <? v) = true \/ (v <=? 0) = true).
Proof.
  eexists; split; [apply particleCallback_sampled|]; simpl.
  repeat split.
  - now intros ->.
  - intros H; now rewrite (leb_zero_not_positive _ H).
  - intros H; now rewrite (leb_zero_not_positive _ (eqb_zero_leb _ H)).
  - now apply positive_or_leb_zero.
Qed.

(** C7: for a sampled number [v], the new velocity is the old velocity plus
    the normalized position scaled by [v * 10 * scale]: each component of
    the old velocity is kept and added to. *)
Theorem velocity_is_accumulated :
  exists particle',
    particleCallback this particle dt = JS.Ok particle'
    /\ Particle.velocity particle'
       = Cartesian3.add (Particle.velocity particle)
           (Cartesian3.multiplyByScalar
              (Cartesian3.normalize (Particle.position particle))
              (v * 10 * Required.scale (renderOptions this)))
    /\ (let n := Cartesian3.normalize (Particle.position particle) in
        let k := v * 10 * Required.scale (renderOptions this) in
        Cartesian3.x (Particle.velocity particle')
        = Cartesian3.x (Particle.velocity particle) + Cartesian3.x n * k
        /\ Cartesian3.y (Particle.velocity particle')
           = Cartesian3.y (Particle.velocity particle) + Cartesian3.y n * k
        /\ Cartesian3.z (Particle.velocity particle')
           = Cartesian3.z (Particle.velocity particle) + Cartesian3.z n * k)
    /\ Particle.position particle' = Particle.position particle.
Proof.
  eexists; split; [apply particleCallback_sampled|]; simpl.
  repeat split.
Qed.

End Callback.

(** No index is resolved on a grid without rows: reading the length of its
    first row throws. *)
Lemma empty_grid_throws {engine : Cesium}
  (this : ParticleHeatMap) (particle : Particle.t) (dt : float)
  (p : ref) (cartographic : Cartographic.t) :
  particleSystem this = Some p ->
  cartesianToCartographic (Particle.position particle) = JS.Ok (Some cartographic) ->
  data this = [] ->
  exists message, particleCallback this particle dt = JS.Throw (JS.TypeError message).
Proof.
  intros Hp Hc Hd; unfold particleCallback, particleCallback_steps, gridIndex.
  rewrite Hp, Hc, Hd; simpl; eauto.
Qed.

(** The callback on the started demo instance. *)

Lemma no_data_witness :
  (exists particle',
     particleCallback (engine := Flat.engine) Flat.live (particle_over 116 56) 0.0625
     = JS.Ok particle'
     /\ Color.alpha (Particle.startColor particle') = 0
     /\ (exists c, Particle.endColor particle' = Some c /\ Color.alpha c = 0)
     /\ Particle.image particle' = None
     /\ Particle.velocity particle' = Particle.velocity (particle_over 116 56)
     /\ particle' = neutralize (particle_over 116 56))
  /\ (exists particle',
        particleCallback (engine := Flat.engine) Flat.live (particle_over 121 59) 0.0625
        = JS.Ok particle'
        /\ Color.alpha (Particle.startColor particle') = 0
        /\ (exists c, Particle.endColor particle' = Some c /\ Color.alpha c = 0)
        /\ Particle.image particle' = None
        /\ Particle.velocity particle' = Particle.velocity (particle_over 121 59)
        /\ particle' = neutralize (particle_over 121 59)).
Proof.
  split.
  - refine (no_data_neutralizes_particle (engine := Flat.engine)
              Flat.live (particle_over 116 56) 0.0625 0%nat (degrees 116 56) 0%Z 1%Z
              eq_refl eq_refl _ (Color.mk 1 1 1 1) eq_refl _).
    + evaluate.
    + right; exists nan; split; reflexivity.
  - refine (no_data_neutralizes_particle (engine := Flat.engine)
              Flat.live (particle_over 121 59) 0.0625 0%nat (degrees 121 59) 2%Z 0%Z
              eq_refl eq_refl _ (Color.mk 1 1 1 1) eq_refl _).
    + evaluate.
    + left; reflexivity.
Defined.

Lemma end_color_witness :
  (exists particle',
     particleCallback (engine := Flat.engine) Flat.live (particle_over 116 59) 0.0625
     = JS.Ok particle'
     /\ ((0 <? 0.5) = true ->
         Particle.endColor particle'
         = Flat.fromCssColorString (Required.upColor (renderOptions Flat.live)))
     /\ ((0.5 <=? 0) = true ->
         Particle.endColor particle'
         = Flat.fromCssColorString (Required.downColor (renderOptions Flat.live)))
     /\ ((0.5 =? 0) = true ->
         Particle.endColor particle'
         = Flat.fromCssColorString (Required.downColor (renderOptions Flat.live)))
     /\ ((0 <? 0.5) = true \/ (0.5 <=? 0) = true))
  /\ (exists particle',
        particleCallback (engine := Flat.engine) Flat.live (particle_over 119 56) 0.0625
        = JS.Ok particle'
        /\ ((0 <? 0) = true ->
            Particle.endColor particle'
            = Flat.fromCssColorString (Required.upColor (renderOptions Flat.live)))
        /\ ((0 <=? 0) = true ->
            Particle.endColor particle'
            = Flat.fromCssColorString (Required.downColor (renderOptions Flat.live)))
        /\ ((0 =? 0) = true ->
            Particle.endColor particle'
            = Flat.fromCssColorString (Required.downColor (renderOptions Flat.live)))
        /\ ((0 <? 0) = true \/ (0 <=? 0) = true)).
Proof.
  split.
  - apply (end_color_follows_sign (engine := Flat.engine)
             Flat.live (particle_over 116 59) 0.0625 0%nat (degrees 116 59) 0%Z 0%Z).
    + reflexivity.
    + reflexivity.
    + evaluate.
    + reflexivity.
    + reflexivity.
  - apply (end_color_follows_sign (engine := Flat.engine)
             Flat.live (particle_over 119 56) 0.0625 0%nat (degrees 119 56) 1%Z 1%Z).
    + reflexivity.
    + reflexivity.
    + evaluate.
    + reflexivity.
    + reflexivity.
Defined.

Lemma velocity_witness :
  exists particle',
    particleCallback (engine := Flat.engine) Flat.live (particle_over 119 59) 0.0625
    = JS.Ok particle'
    /\ Particle.velocity particle'
       = Cartesian3.add (Particle.velocity (particle_over 119 59))
           (Cartesian3.multiplyByScalar
              (Cartesian3.normalize (Particle.position (particle_over 119 59)))
              (-0.25 * 10 * Required.scale (renderOptions Flat.live)))
    /\ (let n := Cartesian3.normalize (Particle.position (particle_over 119 59)) in
        let k := -0.25 * 10 * Required.scale (renderOptions Flat.live) in
        Cartesian3.x (Particle.velocity particle')
        = Cartesian3.x (Particle.velocity (particle_over 119 59)) + Cartesian3.x n * k
        /\ Cartesian3.y (Particle.velocity particle')
           = Cartesian3.y (Particle.velocity (particle_over 119 59)) + Cartesian3.y n * k
        /\ Cartesian3.z (Particle.velocity particle')
           = Cartesian3.z (Particle.velocity (particle_over 119 59)) + Cartesian3.z n * k)
    /\ Particle.position particle' = Particle.position (particle_over 119 59).
Proof.
  apply (velocity_is_accumulated (engine := Flat.engine)
           Flat.live (particle_over 119 59) 0.0625 0%nat (degrees 119 59) 1%Z 0%Z).
  - reflexivity.
  - reflexivity.
  - evaluate.
  - reflexivity.
  - reflexivity.
Defined.

(** ** The longitude offset across the antimeridian *)

(** C5: the offset is [longitude - west] plus a full turn when the longitude
    is negative and the western edge positive, and [longitude - west] alone
    otherwise.  For a western edge at 170 degrees and a particle at -170
    degrees the plain difference is negative, while the offset is not; it
    lies between 0 and the width of every such rectangle whose extent reaches
    -170 degrees. *)
Theorem lonGap_antimeridian (r : Rectangle.t) (longitude : float) :
  ((longitude <? 0) = true /\ (0 <? Rectangle.west r) = true ->
   lonGap r longitude = longitude - Rectangle.west r + JS.PI * 2)
  /\ (~ ((longitude <? 0) = true /\ (0 <? Rectangle.west r) = true) ->
      lonGap r longitude = longitude - Rectangle.west r)
  /\ (Rectangle.west r = CMath.toRadians 170 ->
      covers_longitude r (CMath.toRadians (-170)) = true ->
      (CMath.toRadians (-170) - Rectangle.west r <? 0) = true
      /\ (0 <=? lonGap r (CMath.toRadians (-170))) = true
      /\ (lonGap r (CMath.toRadians (-170)) <=? Rectangle.width r) = true).
Proof.
  split; [|split].
  - intros [Hl Hw]; unfold lonGap; now rewrite Hl, Hw.
  - intros Hn; unfold lonGap.
    destruct (longitude <? 0); [destruct (0 <? Rectangle.west r)|]; simpl; auto.
    exfalso; apply Hn; split; reflexivity.
  - intros Hw Hc; unfold covers_longitude in Hc; unfold lonGap.
    rewrite Hw in *.
    split; [reflexivity|].
    split; [reflexivity|exact Hc].
Qed.

Lemma lonGap_antimeridian_witness :
  let r := Rectangle.fromDegrees 170 (-10) (-160) 10 in
  lonGap r (CMath.toRadians (-170)) = CMath.toRadians (-170) - Rectangle.west r + JS.PI * 2
  /\ (CMath.toRadians (-170) - Rectangle.west r <? 0) = true
  /\ (0 <=? lonGap r (CMath.toRadians (-170))) = true
  /\ (lonGap r (CMath.toRadians (-170)) <=? Rectangle.width r) = true.
Proof.
  intros r; split.
  - apply (proj1 (lonGap_antimeridian r (CMath.toRadians (-170)))).
    split; reflexivity.
  - apply (proj2 (proj2 (lonGap_antimeridian r (CMath.toRadians (-170)))));
      reflexivity.
Defined.

(** ** The grid cell of the rectangle's centre *)

(** C6, on [narrow_band]: the rectangle does not cross the antimeridian and
    the grid has 2 rows and 2 columns, so the cell specified for the centre is
    column 1, row 1; the callback resolves the centre to column 1, row 0,
    because the latitude quotient computed in doubles is below one half, and
    so reads the value 2 of the northern row instead of 4. *)
Lemma center_of_narrow_band_is_in_row_0 :
  (Rectangle.west (rectangle narrow_band) <=? Rectangle.east (rectangle narrow_band)) = true
  /\ List.length (data narrow_band) = 2%nat
  /\ Z.quot 2 2 = 1%Z
  /\ gridIndex narrow_band (at_center narrow_band 1000) = JS.Ok (1%Z, 0%Z)
  /\ gridIndex narrow_band (at_center narrow_band 1000)
     <> JS.Ok (Z.quot 2 2, Z.quot 2 2)
  /\ (latRatio narrow_band (at_center narrow_band 1000) <? 0.5) = true
  /\ sample narrow_band 1 0 = Some 2
  /\ sample narrow_band 1 1 = Some 4.
Proof.
  assert (E : gridIndex narrow_band (at_center narrow_band 1000) = JS.Ok (1%Z, 0%Z))
    by evaluate.
  split; [reflexivity|].
  split; [reflexivity|].
  split; [reflexivity|].
  split; [exact E|].
  split; [rewrite E; intros H; discriminate H|].
  split; [evaluate|].
  split; reflexivity.
Qed.

(** ** Doubles: the exact product of one half and an array length *)

Lemma digits2_pos_size (p : positive) : digits2_pos p = Pos.size p.
Proof. induction p; simpl; congruence. Qed.

Lemma digits2_pos_iter_xO (p k : positive) :
  digits2_pos (Pos.iter xO p k) = (digits2_pos p + k)%positive.
Proof.
  induction k as [|k IH] using Pos.peano_ind.
  - simpl. now rewrite Pos.add_1_r.
  - rewrite Pos.iter_succ; simpl; rewrite IH. lia.
Qed.

Lemma Zpos_iter_xO (p k : positive) :
  Z.pos (Pos.iter xO p k) = (Z.pos p * 2 ^ Z.pos k)%Z.
Proof.
  induction k as [|k IH] using Pos.peano_ind.
  - simpl. lia.
  - rewrite Pos.iter_succ, Pos2Z.inj_xO, IH, Pos2Z.inj_succ, Z.pow_succ_r by lia. lia.
Qed.

Lemma shr_fexp_normal (M : positive) (e : Z) :
  digits2_pos M = 53%positive -> (-1074 <= e)%Z ->
  shr_fexp prec emax (Z.pos M) e loc_Exact
  = ({| shr_m := Z.pos M; shr_r := false; shr_s := false |}, e).
Proof.
  intros Hd He.
  unfold shr_fexp, shr, Zdigits2, fexp, emin, prec, emax; rewrite Hd.
  replace (Z.max (53 + e - 53) (3 - 1024 - 53) - e)%Z with 0%Z by lia.
  reflexivity.
Qed.

Lemma binary_round_aux_normal (s : bool) (M : positive) (e : Z) :
  digits2_pos M = 53%positive -> (-1074 <= e <= 971)%Z ->
  binary_round_aux prec emax s (Z.pos M) e loc_Exact = S754_finite s M e.
Proof.
  intros Hd He.
  unfold binary_round_aux.
  rewrite shr_fexp_normal by (auto; lia); simpl.
  rewrite shr_fexp_normal by (auto; lia); simpl.
  change (emax - prec)%Z with 971%Z.
  destruct (Z.leb_spec e 971); [reflexivity|lia].
Qed.

Lemma Prim2SF_half : Prim2SF 0.5 = S754_finite false 4503599627370496 (-53).
Proof. reflexivity. Qed.

(** Halving a normal double changes its exponent only. *)
Lemma SFmul_half (M : positive) (e : Z) :
  digits2_pos M = 53%positive -> (-1073 <= e <= 971)%Z ->
  SFmul prec emax (S754_finite false 4503599627370496 (-53)) (S754_finite false M e)
  = S754_finite false M (e - 1).
Proof.
  intros Hd He.
  unfold SFmul; cbn [xorb Pos.mul].
  assert (Hs : shr_fexp prec emax
                 (Z.pos M~0~0~0~0~0~0~0~0~0~0~0~0~0~0~0~0~0~0~0~0~0~0~0~0~0~0
                           ~0~0~0~0~0~0~0~0~0~0~0~0~0~0~0~0~0~0~0~0~0~0~0~0~0~0)
                 (-53 + e) loc_Exact
               = ({| shr_m := Z.pos M; shr_r := false; shr_s := false |}, (e - 1)%Z)).
  { unfold shr_fexp, Zdigits2, fexp, emin, prec, emax.
    cbn [digits2_pos]; rewrite Hd; cbn [Pos.succ].
    replace (Z.max (105 + (-53 + e) - 53) (3 - 1024 - 53) - (-53 + e))%Z with 52%Z by lia.
    cbn [shr shr_record_of_loc iter_pos shr_1 orb].
    f_equal; lia. }
  unfold binary_round_aux; rewrite Hs.
  cbn [shr_m loc_of_shr_record round_nearest_even].
  rewrite shr_fexp_normal by (auto; lia).
  cbn [shr_m].
  change (emax - prec)%Z with 971%Z.
  destruct (Z.leb_spec (e - 1) 971); [reflexivity|lia].
Qed.

(** The double of a positive integer below 2^53, before any rounding. *)
Lemma binary_normalize_small (p k : positive) :
  (digits2_pos p + k = 53)%positive ->
  binary_normalize prec emax (Z.pos p) 0 false
  = S754_finite false (Pos.iter xO p k) (Z.neg k).
Proof.
  intros Hk.
  assert (E : fexp prec emax (Z.pos (digits2_pos p) + 0) = Z.neg k)
    by (unfold fexp, emin, prec, emax; lia).
  unfold binary_normalize, binary_round, shl_align.
  rewrite E, Z.sub_0_r.
  apply binary_round_aux_normal.
  - now rewrite digits2_pos_iter_xO.
  - lia.
Qed.

Lemma digits2_pos_bound (p : positive) :
  (Z.pos p < 2 ^ 32)%Z -> (Z.pos (digits2_pos p) <= 32)%Z.
Proof.
  intros H; rewrite digits2_pos_size.
  pose proof (Pos.size_le p) as Hs.
  apply Pos2Z.pos_le_pos in Hs.
  rewrite Pos2Z.inj_pow in Hs.
  destruct (Z.le_gt_cases (Z.pos (Pos.size p)) 32) as [Hle|Hgt]; [exact Hle|].
  assert (2 ^ 33 <= 2 ^ Z.pos (Pos.size p))%Z by (apply Z.pow_le_mono_r; lia).
  lia.
Qed.

Lemma div_scaled_half (a c : Z) :
  (0 <= a)%Z -> (0 < c)%Z -> (a * c / (2 * c))%Z = Z.quot a 2.
Proof.
  intros Ha Hc.
  rewrite Z.div_mul_cancel_r by lia.
  now rewrite Z.quot_div_nonneg by lia.
Qed.

(** Half the length of an array, truncated: the double product of 0.5 and
    the length is exact, and [~~] drops its fractional part. *)
Lemma half_of_length (n : Z) :
  (0 <= n < 2 ^ 32)%Z ->
  JS.double_tilde (0.5 * of_uint63 (Uint63.of_Z n)) = Z.quot n 2.
Proof.
  intros Hn.
  rewrite double_tilde_ToInt32; unfold JS.ToInt32.
  assert (Ht : JS.truncate (0.5 * of_uint63 (Uint63.of_Z n)) = Z.quot n 2).
  { unfold JS.truncate.
    rewrite FloatAxioms.mul_spec, FloatAxioms.of_uint63_spec, Prim2SF_half.
    rewrite Uint63.of_Z_spec, Z.mod_small by (change Uint63.wB with (2 ^ 63)%Z; lia).
    destruct n as [|p|p]; [reflexivity| |lia].
    pose proof (digits2_pos_bound p (proj2 Hn)) as Hd.
    assert (Hk : exists k, (digits2_pos p + k = 53)%positive).
    { exists (Z.to_pos (53 - Z.pos (digits2_pos p))); lia. }
    destruct Hk as [k Hk].
    rewrite (binary_normalize_small p k Hk).
    unfold FloatAxioms.SF64mul.
    rewrite SFmul_half by (rewrite ?digits2_pos_iter_xO; auto; lia).
    destruct (Z.leb_spec 0 (Z.neg k - 1)); [lia|].
    rewrite Zpos_iter_xO.
    replace (- (Z.neg k - 1))%Z with (Z.succ (Z.pos k)) by lia.
    rewrite Z.pow_succ_r by lia.
    apply div_scaled_half; [lia|apply Z.pow_pos_nonneg; lia]. }
  rewrite Ht; apply wrap32_small.
  pose proof (Z.quot_pos n 2); pose proof (Z.quot_lt_upper_bound n 2 (2 ^ 31)); lia.
Qed.

(** The cell of any position, in terms of the two quotients. *)
Lemma gridIndex_ratios (this : ParticleHeatMap) (c : Cartographic.t) (row0 : list float) :
  JS.index (data this) 0 = Some row0 ->
  gridIndex this c
  = JS.Ok (JS.ToInt32 (lonRatio this c * JS.length row0),
           JS.ToInt32 (latRatio this c * JS.length (data this))).
Proof.
  intros H; unfold gridIndex; rewrite H.
  now rewrite !double_tilde_ToInt32.
Qed.

(** ** Doubles: the rounded product of a quotient near one half and a length *)

Lemma digits2_pos_bounds (p : positive) :
  (2 ^ (Z.pos (digits2_pos p) - 1) <= Z.pos p < 2 ^ Z.pos (digits2_pos p))%Z.
Proof.
  rewrite digits2_pos_size.
  pose proof (Pos.size_gt p) as Hgt; pose proof (Pos.size_le p) as Hle.
  apply Pos2Z.pos_lt_pos in Hgt; apply Pos2Z.pos_le_pos in Hle.
  rewrite Pos2Z.inj_pow in Hgt, Hle.
  split; [|exact Hgt].
  replace (Z.pos (Pos.size p)) with (Z.succ (Z.pos (Pos.size p) - 1)) in Hle by lia.
  rewrite Z.pow_succ_r in Hle by lia; lia.
Qed.

Lemma digits2_pos_unique (p : positive) (n : Z) :
  (2 ^ (n - 1) <= Z.pos p < 2 ^ n)%Z -> Z.pos (digits2_pos p) = n.
Proof.
  intros [Hlo Hhi]; pose proof (digits2_pos_bounds p) as [Dlo Dhi].
  destruct (Z.lt_trichotomy (Z.pos (digits2_pos p)) n) as [H|[H|H]]; [|exact H|].
  - assert (2 ^ Z.pos (digits2_pos p) <= 2 ^ (n - 1))%Z
      by (apply Z.pow_le_mono_r; lia).
    lia.
  - assert (2 ^ n <= 2 ^ (Z.pos (digits2_pos p) - 1))%Z
      by (apply Z.pow_le_mono_r; lia).
    lia.
Qed.

(** One step of the right shift keeps the quotient and records, in the
    round bit, whether the remainder reaches one half. *)
Lemma shr_1_spec (P j : Z) (mrs : shr_record) :
  (0 <= j)%Z ->
  (0 <= shr_m mrs
   /\ shr_m mrs * 2 ^ j <= P < (shr_m mrs + 1) * 2 ^ j
   /\ (shr_r mrs = true -> 2 ^ j <= 2 * (P - shr_m mrs * 2 ^ j)))%Z ->
  (0 <= shr_m (shr_1 mrs)
   /\ shr_m (shr_1 mrs) * 2 ^ (j + 1) <= P < (shr_m (shr_1 mrs) + 1) * 2 ^ (j + 1)
   /\ (shr_r (shr_1 mrs) = true
       -> 2 ^ (j + 1) <= 2 * (P - shr_m (shr_1 mrs) * 2 ^ (j + 1))))%Z.
Proof.
  intros Hj; rewrite Z.pow_add_r, Z.pow_1_r by lia.
  assert (HX : (0 < 2 ^ j)%Z) by (apply Z.pow_pos_nonneg; lia).
  set (X := (2 ^ j)%Z) in *; clearbody X.
  destruct mrs as [m r s]; cbn [shr_m shr_r]; intros (Hm & Hb & _).
  destruct m as [|[p|p|]|p]; unfold shr_1; cbn [shr_m shr_r];
    [|assert (E : Z.pos p~1 = (2 * Z.pos p + 1)%Z) by reflexivity; rewrite E in Hb
     |assert (E : Z.pos p~0 = (2 * Z.pos p)%Z) by reflexivity; rewrite E in Hb| |];
    repeat split; intros; try discriminate; lia.
Qed.

Lemma iter_shr_1_spec (P : Z) (n : positive) :
  forall (j : Z) (mrs : shr_record),
  (0 <= j)%Z ->
  (0 <= shr_m mrs
   /\ shr_m mrs * 2 ^ j <= P < (shr_m mrs + 1) * 2 ^ j
   /\ (shr_r mrs = true -> 2 ^ j <= 2 * (P - shr_m mrs * 2 ^ j)))%Z ->
  (0 <= shr_m (iter_pos shr_1 n mrs)
   /\ shr_m (iter_pos shr_1 n mrs) * 2 ^ (j + Z.pos n) <= P
      < (shr_m (iter_pos shr_1 n mrs) + 1) * 2 ^ (j + Z.pos n)
   /\ (shr_r (iter_pos shr_1 n mrs) = true
       -> 2 ^ (j + Z.pos n) <= 2 * (P - shr_m (iter_pos shr_1 n mrs) * 2 ^ (j + Z.pos n))))%Z.
Proof.
  induction n as [n IH|n IH|]; intros j mrs Hj H; simpl.
  - replace (j + Z.pos n~1)%Z with (j + 1 + Z.pos n + Z.pos n)%Z by lia.
    apply IH; [lia|]; apply IH; [lia|]; now apply shr_1_spec.
  - replace (j + Z.pos n~0)%Z with (j + Z.pos n + Z.pos n)%Z by lia.
    apply IH; [lia|]; now apply IH.
  - now apply shr_1_spec.
Qed.

(** Shifting right by [s] places and rounding to nearest gives the quotient
    or its successor, the successor only when the remainder is at least one
    half. *)
Lemma shr_round (P s : positive) :
  let mrs := iter_pos shr_1 s {| shr_m := Z.pos P; shr_r := false; shr_s := false |} in
  let M := round_nearest_even (shr_m mrs) (loc_of_shr_record mrs) in
  (Z.pos P / 2 ^ Z.pos s <= M <= Z.pos P / 2 ^ Z.pos s + 1
   /\ (M = Z.pos P / 2 ^ Z.pos s + 1 -> 2 ^ Z.pos s <= 2 * (Z.pos P mod 2 ^ Z.pos s)))%Z.
Proof.
  intros mrs M; subst M.
  destruct (iter_shr_1_spec (Z.pos P) s 0 {| shr_m := Z.pos P; shr_r := false; shr_s := false |})
    as (Hm & Hb & Hr); [lia| |].
  { simpl; split; [lia|]; split; [lia|discriminate]. }
  fold mrs in Hm, Hb, Hr; rewrite Z.add_0_l in Hb, Hr.
  assert (HX : (0 < 2 ^ Z.pos s)%Z) by (apply Z.pow_pos_nonneg; lia).
  set (X := (2 ^ Z.pos s)%Z) in *.
  assert (Hq : (Z.pos P / X = shr_m mrs)%Z).
  { symmetry; apply (Z.div_unique _ _ _ (Z.pos P - shr_m mrs * X)); lia. }
  assert (Hmod : (Z.pos P mod X = Z.pos P - shr_m mrs * X)%Z).
  { rewrite Z.mod_eq by lia; rewrite Hq; lia. }
  rewrite Hq, Hmod.
  destruct mrs as [m [|] [|]]; simpl in *.
  - split; [lia|]; intros _; apply Hr; reflexivity.
  - destruct (Z.even m); (split; [lia|]); intros ?; try lia; apply Hr; reflexivity.
  - split; [lia|]; lia.
  - split; [lia|]; lia.
Qed.

Lemma shr_fexp_carry (e : Z) :
  (-1075 <= e)%Z ->
  shr_fexp prec emax (2 ^ 53) e loc_Exact
  = ({| shr_m := 2 ^ 52; shr_r := false; shr_s := false |}, (e + 1)%Z).
Proof.
  intros He.
  unfold shr_fexp, Zdigits2, fexp, emin, prec, emax.
  change (Z.pos (digits2_pos (Z.to_pos (2 ^ 53)))) with 54%Z.
  change (2 ^ 53)%Z with 9007199254740992%Z.
  cbn [Zdigits2 digits2_pos Pos.succ].
  replace (Z.max (54 + e - 53) (3 - 1024 - 53) - e)%Z with 1%Z by lia.
  reflexivity.
Qed.

(** The rounded product of two normal mantissas. *)
Lemma binary_round_aux_product (P s : positive) (e : Z) :
  Z.pos (digits2_pos P) = (53 + Z.pos s)%Z ->
  (-1074 <= e + Z.pos s <= 970)%Z ->
  exists (M : Z) (m' : positive) (e' : Z),
    binary_round_aux prec emax false (Z.pos P) e loc_Exact = S754_finite false m' e'
    /\ (Z.pos P / 2 ^ Z.pos s <= M <= Z.pos P / 2 ^ Z.pos s + 1)%Z
    /\ (M = Z.pos P / 2 ^ Z.pos s + 1 -> 2 ^ Z.pos s <= 2 * (Z.pos P mod 2 ^ Z.pos s))%Z
    /\ ((Z.pos m' = M /\ e' = e + Z.pos s)%Z
        \/ (M = 2 ^ 53 /\ Z.pos m' = 2 ^ 52 /\ e' = e + Z.pos s + 1)%Z).
Proof.
  intros Hd He.
  pose proof (shr_round P s) as Hround; cbv zeta in Hround.
  pose proof (digits2_pos_bounds P) as [Plo Phi]; rewrite Hd in Plo, Phi.
  assert (HX : (0 < 2 ^ Z.pos s)%Z) by (apply Z.pow_pos_nonneg; lia).
  replace (53 + Z.pos s - 1)%Z with (52 + Z.pos s)%Z in Plo by lia.
  rewrite Z.pow_add_r in Plo, Phi by lia.
  assert (Hq : (2 ^ 52 <= Z.pos P / 2 ^ Z.pos s < 2 ^ 53)%Z).
  { split; [apply Z.div_le_lower_bound; lia|apply Z.div_lt_upper_bound; lia]. }
  unfold binary_round_aux.
  assert (Hs : shr_fexp prec emax (Z.pos P) e loc_Exact
               = (iter_pos shr_1 s {| shr_m := Z.pos P; shr_r := false; shr_s := false |},
                  (e + Z.pos s)%Z)).
  { unfold shr_fexp, Zdigits2, fexp, emin, prec, emax; rewrite Hd.
    replace (Z.max (53 + Z.pos s + e - 53) (3 - 1024 - 53) - e)%Z with (Z.pos s) by lia.
    reflexivity. }
  rewrite Hs.
  set (mrs := iter_pos shr_1 s _) in *.
  set (M := round_nearest_even (shr_m mrs) (loc_of_shr_record mrs)) in *.
  destruct Hround as (Hb & Hup).
  destruct (Z.eq_dec M (2 ^ 53)) as [E|E].
  - exists M, (Z.to_pos (2 ^ 52)), (e + Z.pos s + 1)%Z.
    rewrite E, shr_fexp_carry by lia; cbn [shr_m].
    change (2 ^ 52)%Z with 4503599627370496%Z at 1.
    change (emax - prec)%Z with 971%Z.
    destruct (Z.leb_spec (e + Z.pos s + 1) 971); [|lia].
    rewrite <- E.
    split; [reflexivity|].
    split; [exact Hb|].
    split; [exact Hup|].
    right; repeat split; assumption.
  - destruct M as [|Mp|Mp] eqn:EM; try lia.
    exists (Z.pos Mp), Mp, (e + Z.pos s)%Z.
    rewrite shr_fexp_normal; [|apply Pos2Z.inj, digits2_pos_unique; lia|lia].
    cbn [shr_m].
    change (emax - prec)%Z with 971%Z.
    destruct (Z.leb_spec (e + Z.pos s) 971); [|lia].
    split; [reflexivity|].
    split; [exact Hb|].
    split; [exact Hup|].
    left; split; reflexivity.
Qed.

(** The integer part of a rounded quotient: rounding [P / A] to nearest
    does not reach the next multiple of [B] when the remainder [R] of [P]
    by [A * B] is more than [A / 2] away from it. *)
Lemma trunc_round (P A B W K R M : Z) :
  (0 < A)%Z -> (0 < B)%Z -> (A * B = W)%Z ->
  (P = K * W + R)%Z -> (0 <= R)%Z -> (2 * R + A < 2 * W)%Z ->
  (P / A <= M <= P / A + 1)%Z ->
  (M = P / A + 1 -> A <= 2 * (P mod A))%Z ->
  (M / B = K)%Z.
Proof.
  intros HA HB HW HP HR HRW HM Hup.
  assert (E1 : (A * (K * B) = K * W)%Z) by (subst W; ring).
  assert (E2 : (A * ((K + 1) * B) = K * W + W)%Z) by (subst W; ring).
  assert (Hlow : (K * B <= P / A)%Z)
    by (apply Z.div_le_lower_bound; [lia|rewrite E1; lia]).
  assert (Hq : (P / A < (K + 1) * B)%Z)
    by (apply Z.div_lt_upper_bound; [lia|rewrite E2; lia]).
  assert (Hlt : (M < (K + 1) * B)%Z).
  { destruct (Z.eq_dec M (P / A + 1)) as [E|E]; [|lia].
    specialize (Hup E).
    pose proof (Z.div_mod P A ltac:(lia)) as Hdm.
    destruct (Z.lt_ge_cases M ((K + 1) * B)) as [H|H]; [exact H|exfalso].
    assert (H' : (A * ((K + 1) * B) <= A * M)%Z)
      by (apply Z.mul_le_mono_nonneg_l; lia).
    rewrite E2, E in H'.
    replace (A * (P / A + 1))%Z with (A * (P / A) + A)%Z in H' by ring.
    lia. }
  symmetry; apply (Z.div_unique _ _ _ (M - B * K)); lia.
Qed.

(** The integer part of the product of a double in [1/4, 1) and a positive
    length, through the product of the mantissas. *)
Lemma truncate_product (q : float) (mq : positive) (eq : Z) (p : positive) :
  Prim2SF q = S754_finite false mq eq ->
  Z.pos (digits2_pos mq) = 53%Z ->
  (-54 <= eq <= -53)%Z ->
  (Z.pos p < 2 ^ 32)%Z ->
  exists M A B C : Z,
    JS.truncate (q * of_uint63 (Uint63.of_Z (Z.pos p))) = (M / B)%Z
    /\ (0 < A <= 2 ^ 53)%Z /\ (0 < B)%Z /\ (2 ^ 21 <= C)%Z
    /\ (A * B = 2 ^ (- eq) * C)%Z
    /\ (2 ^ 52 <= Z.pos p * C)%Z
    /\ (A * 2 ^ 52 <= Z.pos mq * Z.pos p * C)%Z
    /\ (Z.pos mq * Z.pos p * C / A <= M <= Z.pos mq * Z.pos p * C / A + 1)%Z
    /\ (M = Z.pos mq * Z.pos p * C / A + 1 ->
        A <= 2 * ((Z.pos mq * Z.pos p * C) mod A))%Z.
Proof.
  intros Hq Hdq He Hp.
  pose proof (digits2_pos_bound p Hp) as Hd.
  assert (Hk : exists k, (digits2_pos p + k = 53)%positive).
  { exists (Z.to_pos (53 - Z.pos (digits2_pos p))); lia. }
  destruct Hk as [k Hk].
  assert (Hk21 : (21 <= Z.pos k <= 52)%Z) by lia.
  set (mn := Pos.iter xO p k).
  assert (Hdn : Z.pos (digits2_pos mn) = 53%Z)
    by (unfold mn; rewrite digits2_pos_iter_xO; lia).
  assert (Emn : Z.pos mn = (Z.pos p * 2 ^ Z.pos k)%Z) by apply Zpos_iter_xO.
  pose proof (digits2_pos_bounds mq) as Bq; rewrite Hdq in Bq.
  pose proof (digits2_pos_bounds mn) as Bn; rewrite Hdn in Bn.
  change (2 ^ (53 - 1))%Z with (2 ^ 52)%Z in Bq, Bn.
  assert (BP : (2 ^ 104 <= Z.pos (mq * mn) < 2 ^ 106)%Z).
  { rewrite Pos2Z.inj_mul.
    change (2 ^ 104)%Z with (2 ^ 52 * 2 ^ 52)%Z.
    change (2 ^ 106)%Z with (2 ^ 53 * 2 ^ 53)%Z.
    split; [apply Z.mul_le_mono_nonneg; lia|apply Z.mul_lt_mono_nonneg; lia]. }
  pose proof (digits2_pos_bounds (mq * mn)) as BD.
  set (D := Z.pos (digits2_pos (mq * mn))) in *.
  assert (HD : (105 <= D <= 106)%Z).
  { split.
    - destruct (Z.le_gt_cases 105 D) as [H|H]; [exact H|exfalso].
      assert (2 ^ D <= 2 ^ 104)%Z by (apply Z.pow_le_mono_r; lia).
      lia.
    - destruct (Z.le_gt_cases D 106) as [H|H]; [exact H|exfalso].
      assert (2 ^ 106 <= 2 ^ (D - 1))%Z by (apply Z.pow_le_mono_r; lia).
      lia. }
  set (s := Z.to_pos (D - 53)).
  assert (Hs : Z.pos s = (D - 53)%Z) by (unfold s; lia).
  destruct (binary_round_aux_product (mq * mn) s (eq + Z.neg k))
    as (M & m' & e' & Hr & Hb & Hup & Hcase); [fold D; lia|lia|].
  set (t := (Z.pos k - eq - Z.pos s)%Z).
  assert (Ht : (21 <= t)%Z) by (unfold t; lia).
  assert (EP : Z.pos (mq * mn) = (Z.pos mq * Z.pos p * 2 ^ Z.pos k)%Z)
    by (rewrite Pos2Z.inj_mul, Emn; ring).
  exists M, (2 ^ Z.pos s)%Z, (2 ^ t)%Z, (2 ^ Z.pos k)%Z.
  rewrite <- EP.
  split; [|split; [|split; [|split; [|split; [|split; [|split; [|split]]]]]]].
  - unfold JS.truncate.
    rewrite FloatAxioms.mul_spec, FloatAxioms.of_uint63_spec, Hq.
    rewrite Uint63.of_Z_spec, Z.mod_small by (change Uint63.wB with (2 ^ 63)%Z; lia).
    rewrite (binary_normalize_small p k Hk).
    unfold FloatAxioms.SF64mul, SFmul; cbn [xorb]; fold mn.
    rewrite Hr.
    destruct Hcase as [[Em Ee]|(EM & Em & Ee)].
    + destruct (Z.leb_spec 0 e'); [lia|].
      rewrite Em; f_equal; f_equal; unfold t; lia.
    + destruct (Z.leb_spec 0 e'); [lia|].
      rewrite Em, EM.
      replace (- e')%Z with (t - 1)%Z by (unfold t; lia).
      replace t with (Z.succ (t - 1)) at 2 by lia.
      rewrite Z.pow_succ_r by lia.
      change (2 ^ 53)%Z with (2 * 2 ^ 52)%Z.
      rewrite Z.div_mul_cancel_l; [reflexivity| |lia].
      apply Z.pow_nonzero; lia.
  - split; [apply Z.pow_pos_nonneg; lia|apply Z.pow_le_mono_r; lia].
  - apply Z.pow_pos_nonneg; lia.
  - apply Z.pow_le_mono_r; lia.
  - rewrite <- !Z.pow_add_r by lia; f_equal; unfold t; lia.
  - rewrite <- Emn; lia.
  - rewrite <- Z.pow_add_r by lia.
    replace (Z.pos s + 52)%Z with (D - 1)%Z by lia; lia.
  - exact Hb.
  - exact Hup.
Qed.

(** A double that is one half, or above it by at most 2^-34. *)
Lemma half_or_just_above_spec (q : float) :
  half_or_just_above q = true ->
  exists mq : positive,
    Prim2SF q = S754_finite false mq (-53)
    /\ (2 ^ 52 <= Z.pos mq <= 2 ^ 52 + 2 ^ 19)%Z.
Proof.
  unfold half_or_just_above; intros H; apply andb_prop in H as [H1 H2].
  rewrite FloatAxioms.leb_spec in H1, H2.
  change (Prim2SF 0.5) with (S754_finite false 4503599627370496 (-53)) in H1.
  change (Prim2SF 0x1.000000008p-1)
    with (S754_finite false 4503599627894784 (-53)) in H2.
  destruct (Prim2SF q) as [s|s| |s m e]; try discriminate.
  - destruct s; discriminate.
  - destruct s; [discriminate H1|].
    unfold SFleb, SFcompare in H1, H2.
    destruct (Z.compare_spec (-53) e) as [E|E|E]; try discriminate.
    + subst e; rewrite Z.compare_refl in H2.
      change (PosDef.Pos.compare_cont Eq) with Pos.compare in H1, H2.
      rewrite Pos2Z.inj_compare in H1, H2.
      exists m; split; [reflexivity|].
      change (2 ^ 52)%Z with 4503599627370496%Z; change (2 ^ 19)%Z with 524288%Z.
      destruct (Z.compare_spec 4503599627370496 (Z.pos m));
        destruct (Z.compare_spec (Z.pos m) 4503599627894784); try discriminate; lia.
    + destruct (Z.compare_spec e (-53)); try discriminate; lia.
Qed.

(** A double below one half by at most 2^-34. *)
Lemma just_below_half_spec (q : float) :
  just_below_half q = true ->
  exists mq : positive,
    Prim2SF q = S754_finite false mq (-54)
    /\ (2 ^ 53 - 2 ^ 20 <= Z.pos mq < 2 ^ 53)%Z.
Proof.
  unfold just_below_half; intros H; apply andb_prop in H as [H1 H2].
  pose proof (FloatAxioms.Prim2SF_valid q) as Hv.
  rewrite FloatAxioms.leb_spec in H1; rewrite FloatAxioms.ltb_spec in H2.
  change (Prim2SF 0.5) with (S754_finite false 4503599627370496 (-53)) in H2.
  change (Prim2SF 0x1.ffffffffp-2)
    with (S754_finite false 9007199253692416 (-54)) in H1.
  destruct (Prim2SF q) as [s|s| |s m e]; try discriminate.
  - destruct s; discriminate.
  - destruct s; [discriminate H1|].
    unfold SFleb, SFcompare in H1; unfold SFltb, SFcompare in H2.
    change (PosDef.Pos.compare_cont Eq) with Pos.compare in H1, H2.
    rewrite Pos2Z.inj_compare in H1, H2.
    unfold SpecFloat.valid_binary, bounded, canonical_mantissa, fexp, emin, prec, emax
      in Hv.
    apply andb_prop in Hv as [Hc _]; apply Z.eqb_eq in Hc.
    pose proof (digits2_pos_bounds m) as Bm.
    destruct (Z.compare_spec (-54) e) as [E|E|E]; try discriminate.
    + subst e.
      assert (Hd : Z.pos (digits2_pos m) = 53%Z) by lia.
      rewrite Hd in Bm.
      exists m; split; [reflexivity|].
      change (2 ^ 53)%Z with 9007199254740992%Z in *;
        change (2 ^ 20)%Z with 1048576%Z.
      destruct (Z.compare_spec 9007199253692416 (Z.pos m)); try discriminate; lia.
    + destruct (Z.compare_spec e (-53)) as [E'|E'|E']; try discriminate; [|lia].
      subst e.
      assert (Hd : Z.pos (digits2_pos m) = 53%Z) by lia.
      rewrite Hd in Bm; change (2 ^ (53 - 1))%Z with 4503599627370496%Z in Bm.
      destruct (Z.compare_spec (Z.pos m) 4503599627370496); try discriminate; lia.
Qed.

Lemma truncate_times_zero (q : float) (mq : positive) (eq : Z) :
  Prim2SF q = S754_finite false mq eq ->
  JS.truncate (q * of_uint63 (Uint63.of_Z 0)) = 0%Z.
Proof.
  intros Hq; unfold JS.truncate.
  rewrite FloatAxioms.mul_spec, FloatAxioms.of_uint63_spec, Hq; reflexivity.
Qed.

(** The index that a quotient near one half gives on [n] cells. *)
Lemma index_near_half (q : float) (n : Z) :
  (0 <= n < 2 ^ 32)%Z ->
  (half_or_just_above q = true ->
   JS.ToInt32 (q * of_uint63 (Uint63.of_Z n)) = Z.quot n 2)
  /\ (just_below_half q = true ->
      JS.ToInt32 (q * of_uint63 (Uint63.of_Z n))
      = if Z.even n && (0 <? n)%Z then (Z.quot n 2 - 1)%Z else Z.quot n 2).
Proof.
  intros Hn.
  assert (Hquot : (Z.quot n 2 = n / 2)%Z) by (apply Z.quot_div_nonneg; lia).
  assert (Hhalf : (0 <= n / 2 < 2 ^ 31)%Z).
  { split; [apply Z.div_pos; lia|apply Z.div_lt_upper_bound; lia]. }
  pose proof (Z.div_mod n 2 ltac:(lia)) as Hdm.
  pose proof (Z.mod_pos_bound n 2 ltac:(lia)) as Hmod.
  split; intros Hq.
  - destruct (half_or_just_above_spec q Hq) as (mq & Eq & Bq).
    unfold JS.ToInt32.
    destruct n as [|p|p]; [|clear Hn|lia].
    { rewrite (truncate_times_zero q mq _ Eq); reflexivity. }
    destruct (truncate_product q mq (-53) p Eq) as (M & A & B & C & Ht & HA & HB & HC
      & HW & HpC & HAP & HM & Hup); [apply digits2_pos_unique; lia|lia|lia|].
    change (- -53)%Z with 53%Z in HW.
    rewrite Ht, Hquot.
    assert (HK : (M / B = Z.pos p / 2)%Z).
    { apply (trunc_round (Z.pos mq * Z.pos p * C) A B (2 ^ 53 * C) (Z.pos p / 2)
               (((Z.pos p mod 2) * 2 ^ 52 + (Z.pos mq - 2 ^ 52) * Z.pos p) * C) M);
        [lia|lia|exact HW| | | |exact HM|exact Hup].
      - clear - Hdm; set (h := (Z.pos p / 2)%Z) in *; set (b := (Z.pos p mod 2)%Z) in *;
          clearbody h b; rewrite Hdm; ring.
      - apply Z.mul_nonneg_nonneg; [|lia].
        apply Z.add_nonneg_nonneg; [lia|apply Z.mul_nonneg_nonneg; lia].
      - assert (Hd : ((Z.pos mq - 2 ^ 52) * Z.pos p <= 2 ^ 19 * 2 ^ 32)%Z)
          by (apply Z.mul_le_mono_nonneg; lia).
        assert (Hr : (((Z.pos p mod 2) * 2 ^ 52 + (Z.pos mq - 2 ^ 52) * Z.pos p) * C
                      <= (2 ^ 52 + 2 ^ 51) * C)%Z)
          by (apply Z.mul_le_mono_nonneg_r; lia).
        lia. }
    rewrite HK; apply wrap32_small; lia.
  - destruct (just_below_half_spec q Hq) as (mq & Eq & Bq).
    unfold JS.ToInt32.
    destruct n as [|p|p]; [|clear Hn|lia].
    { rewrite (truncate_times_zero q mq _ Eq); reflexivity. }
    destruct (truncate_product q mq (-54) p Eq) as (M & A & B & C & Ht & HA & HB & HC
      & HW & HpC & HAP & HM & Hup); [apply digits2_pos_unique; lia|lia|lia|].
    change (- -54)%Z with 54%Z in HW.
    rewrite Ht, Hquot.
    assert (Hd : (0 < (2 ^ 53 - Z.pos mq) * Z.pos p <= 2 ^ 20 * 2 ^ 32)%Z).
    { split; [apply Z.mul_pos_pos; lia|apply Z.mul_le_mono_nonneg; lia]. }
    change (0 <? Z.pos p)%Z with true; rewrite andb_true_r.
    destruct (Z.even (Z.pos p)) eqn:Hev.
    + assert (Hm0 : (Z.pos p mod 2 = 0)%Z).
      { apply Z.even_spec in Hev; destruct Hev as [h ->].
        rewrite Z.mul_comm; apply Z.mod_mul; lia. }
      assert (Hpos : (1 <= Z.pos p / 2)%Z) by lia.
      assert (HK : (M / B = Z.pos p / 2 - 1)%Z).
      { apply (trunc_round (Z.pos mq * Z.pos p * C) A B (2 ^ 54 * C) (Z.pos p / 2 - 1)
                 ((2 ^ 54 - (2 ^ 53 - Z.pos mq) * Z.pos p) * C) M);
          [lia|lia|exact HW| | | |exact HM|exact Hup].
        - rewrite Hm0 in Hdm; clear - Hdm; set (h := (Z.pos p / 2)%Z) in *;
          clearbody h; rewrite Hdm; ring.
        - apply Z.mul_nonneg_nonneg; lia.
        - assert (H1 : (Z.pos mq * Z.pos p * C < 2 ^ 53 * (Z.pos p * C))%Z).
          { rewrite <- Z.mul_assoc; apply Z.mul_lt_mono_pos_r; lia. }
          assert (H2 : (1 * (Z.pos p * C) <= (2 ^ 53 - Z.pos mq) * (Z.pos p * C))%Z)
            by (apply Z.mul_le_mono_nonneg_r; lia).
          replace ((2 ^ 54 - (2 ^ 53 - Z.pos mq) * Z.pos p) * C)%Z
            with (2 ^ 54 * C - (2 ^ 53 - Z.pos mq) * (Z.pos p * C))%Z by ring.
          lia. }
      rewrite HK; apply wrap32_small; lia.
    + assert (Hm1 : (Z.pos p mod 2 = 1)%Z).
      { rewrite <- Z.negb_odd in Hev; apply negb_false_iff in Hev.
        apply Z.odd_spec in Hev; destruct Hev as [h ->].
        rewrite Z.add_comm, Z.mul_comm, Z.mod_add; [reflexivity|lia]. }
      assert (HK : (M / B = Z.pos p / 2)%Z).
      { apply (trunc_round (Z.pos mq * Z.pos p * C) A B (2 ^ 54 * C) (Z.pos p / 2)
                 ((2 ^ 53 - (2 ^ 53 - Z.pos mq) * Z.pos p) * C) M);
          [lia|lia|exact HW| | | |exact HM|exact Hup].
        - rewrite Hm1 in Hdm; clear - Hdm; set (h := (Z.pos p / 2)%Z) in *;
          clearbody h; rewrite Hdm; ring.
        - apply Z.mul_nonneg_nonneg; lia.
        - assert (Hr : ((2 ^ 53 - (2 ^ 53 - Z.pos mq) * Z.pos p) * C <= 2 ^ 53 * C)%Z)
            by (apply Z.mul_le_mono_nonneg_r; lia).
          lia. }
      rewrite HK; apply wrap32_small; lia.
Qed.

(** C6 (as amended): a particle whose projected position is the rectangle's
    centre resolves to column [~~(qx * cols)] and row [~~(qy * rows)], where
    [qx] and [qy] are the quotients of the index computation evaluated in
    doubles at the centre.  When a quotient is one half, or above it by at
    most 2^-34, the index is trunc(count/2), the half truncated toward zero
    and not rounded; when rounding leaves the quotient below one half, by at
    most 2^-34, the index is trunc(count/2) for an odd count and one less
    than that for an even count. *)
Theorem center_cell_follows_rounded_ratios
  (this : ParticleHeatMap) (height : float) (row0 : list float) :
  JS.index (data this) 0 = Some row0 ->
  (Z.of_nat (List.length row0) < 2 ^ 32)%Z ->
  (Z.of_nat (List.length (data this)) < 2 ^ 32)%Z ->
  exists posX posY,
    gridIndex this (at_center this height) = JS.Ok (posX, posY)
    /\ posX = JS.double_tilde (centerLonRatio (rectangle this) * JS.length row0)
    /\ posY = JS.double_tilde (centerLatRatio (rectangle this) * JS.length (data this))
    /\ (half_or_just_above (centerLonRatio (rectangle this)) = true ->
        posX = Z.quot (Z.of_nat (List.length row0)) 2)
    /\ (half_or_just_above (centerLatRatio (rectangle this)) = true ->
        posY = Z.quot (Z.of_nat (List.length (data this))) 2)
    /\ (just_below_half (centerLonRatio (rectangle this)) = true ->
        posX = if Z.even (Z.of_nat (List.length row0))
                  && (0 <? Z.of_nat (List.length row0))%Z
               then (Z.quot (Z.of_nat (List.length row0)) 2 - 1)%Z
               else Z.quot (Z.of_nat (List.length row0)) 2)
    /\ (just_below_half (centerLatRatio (rectangle this)) = true ->
        posY = if Z.even (Z.of_nat (List.length (data this)))
                  && (0 <? Z.of_nat (List.length (data this)))%Z
               then (Z.quot (Z.of_nat (List.length (data this))) 2 - 1)%Z
               else Z.quot (Z.of_nat (List.length (data this))) 2).
Proof.
  intros H0 Hc Hr.
  destruct (index_near_half (centerLonRatio (rectangle this))
              (Z.of_nat (List.length row0))) as [Hxa Hxb]; [lia|].
  destruct (index_near_half (centerLatRatio (rectangle this))
              (Z.of_nat (List.length (data this)))) as [Hya Hyb]; [lia|].
  eexists; eexists.
  split; [unfold gridIndex; rewrite H0; reflexivity|].
  split; [reflexivity|].
  split; [reflexivity|].
  rewrite !double_tilde_ToInt32.
  repeat split; assumption.
Qed.

Lemma center_cell_witness :
  gridIndex narrow_band (at_center narrow_band 10000)
  = JS.Ok (Z.quot 2 2, (Z.quot 2 2 - 1)%Z)
  /\ gridIndex Flat.demo (at_center Flat.demo 10000) = JS.Ok (Z.quot 2 2, Z.quot 2 2).
Proof.
  split.
  - destruct (center_cell_follows_rounded_ratios narrow_band 10000 [1; 2]
                eq_refl eq_refl eq_refl)
      as (posX & posY & Hg & _ & _ & Hx & _ & _ & Hy).
    rewrite Hg, (Hx ltac:(evaluate)), (Hy ltac:(evaluate)); reflexivity.
  - destruct (center_cell_follows_rounded_ratios Flat.demo 10000 [0.5; -0.25]
                eq_refl eq_refl eq_refl)
      as (posX & posY & Hg & _ & _ & Hx & Hy & _).
    rewrite Hg, (Hx ltac:(evaluate)), (Hy ltac:(evaluate)); reflexivity.
Defined.

(** [~~] drops the fractional part, toward zero. *)
Example double_tilde_truncates :
  JS.double_tilde 1.75 = 1%Z /\ JS.double_tilde (-1.75) = (-1)%Z
  /\ JS.double_tilde nan = 0%Z /\ JS.double_tilde 4294967297.5 = 1%Z.
Proof.
  repeat split; evaluate.
Qed.

(** ** More on the store and the collection *)

Lemma nth_error_modify_other (r q : ref) (f : ParticleSystem.t -> ParticleSystem.t)
  (l : list ParticleSystem.t) :
  q <> r -> nth_error (modify r f l) q = nth_error l q.
Proof.
  revert r q; induction l as [|p l IH]; intros [|r] [|q] H; simpl; auto;
    try congruence.
Qed.

Lemma modify_modify (r : ref) (f g : ParticleSystem.t -> ParticleSystem.t)
  (l : list ParticleSystem.t) :
  modify r g (modify r f l) = modify r (fun p => g (f p)) l.
Proof.
  revert r; induction l as [|p l IH]; intros [|r]; simpl; auto.
  now rewrite IH.
Qed.

Lemma modify_same (r : ref) (f : ParticleSystem.t -> ParticleSystem.t)
  (l : list ParticleSystem.t) (e : ParticleSystem.t) :
  nth_error l r = Some e -> f e = e -> modify r f l = l.
Proof.
  revert r; induction l as [|p l IH]; intros [|r]; simpl; try discriminate.
  - intros [= ->] ->; reflexivity.
  - intros H Hf; now rewrite IH.
Qed.

Lemma In_remove_first (r q : ref) (l : list ref) :
  In q (remove_first r l) -> In q l.
Proof.
  induction l as [|a l IH]; simpl; auto.
  destruct (Nat.eqb a r); simpl; intuition.
Qed.

Lemma In_remove_first_other (r q : ref) (l : list ref) :
  q <> r -> In q l -> In q (remove_first r l).
Proof.
  intros Hq; induction l as [|a l IH]; simpl; auto.
  destruct (Nat.eqb_spec a r) as [->|Ha]; simpl; intuition congruence.
Qed.

Lemma NoDup_remove_first (r : ref) (l : list ref) :
  NoDup l -> NoDup (remove_first r l) /\ ~ In r (remove_first r l).
Proof.
  induction 1 as [|a l Ha Hl IH]; simpl.
  - split; [constructor|auto].
  - destruct (Nat.eqb_spec a r) as [->|Hne].
    + split; assumption.
    + destruct IH as [IH1 IH2]; split.
      * constructor; [|exact IH1].
        intros Hin; apply Ha; eapply In_remove_first; exact Hin.
      * simpl; intuition.
Qed.

Lemma length_assign (r : ref) (f : ParticleSystem.t -> ParticleSystem.t) (s : Scene) :
  List.length (store (assign r f s)) = List.length (store s)
  /\ primitives (assign r f s) = primitives s
  /\ camera (assign r f s) = camera s.
Proof.
  unfold assign; simpl; rewrite length_modify; auto.
Qed.

(** [primitives.remove] takes the reference out of the collection; the
    store keeps its size. *)
Lemma primitives_remove_shape (r : ref) (s : Scene) :
  primitives (primitives_remove (Some r) s) = remove_first r (primitives s)
  /\ List.length (store (primitives_remove (Some r) s)) = List.length (store s)
  /\ camera (primitives_remove (Some r) s) = camera s.
Proof.
  unfold primitives_remove.
  destruct (existsb (Nat.eqb r) (primitives s)) eqn:E; simpl.
  - now rewrite length_modify.
  - repeat split; symmetry; apply remove_first_absent.
    intros H; apply existsb_In in H; congruence.
Qed.

Lemma consistent_same_shape (this this' : ParticleHeatMap) :
  List.length (store (scene this')) = List.length (store (scene this)) ->
  primitives (scene this') = primitives (scene this) ->
  particleSystem this' = particleSystem this ->
  consistent this -> consistent this'.
Proof.
  unfold consistent, well_formed; intros Hl Hp Hs (Hw & Hn & Hr).
  rewrite Hl, Hp, Hs; auto.
Qed.

Section Invariant.

Context {engine : Cesium}.

Lemma init_keeps_consistency (reset : bool) (this this' : ParticleHeatMap) :
  consistent this -> init reset this = JS.Ok this' -> consistent this'.
Proof.
  intros (Hw & Hn & _) Hi.
  destruct (init_inversion reset this this' Hi) as (parsed & _ & Hp & Hs & Hc & _).
  pose proof (well_formed_fresh _ Hw) as Hfresh.
  unfold consistent, well_formed; rewrite Hs, Hc, Hp, length_app; simpl.
  repeat split.
  - apply Forall_app; split.
    + revert Hw; unfold well_formed; apply Forall_impl; intros; lia.
    + constructor; [lia|constructor].
  - apply NoDup_app; [exact Hn|constructor; [simpl; tauto|constructor]|].
    intros a Ha [<-|[]]; contradiction.
  - injection H as <-; lia.
  - injection H as <-; apply in_or_app; right; now left.
Qed.

Lemma update_keeps_consistency (options : RenderOptions.t) (this this' : ParticleHeatMap) :
  consistent this -> update options this = JS.Ok this' -> consistent this'.
Proof.
  intros Hc; unfold update, update_steps.
  destruct (particleSystem this) as [p|] eqn:Hp; [|intros [= <-]; exact Hc].
  destruct (Color_fromCssColorString (Required.startColor (renderOptions this)));
    intros [= <-].
  apply (consistent_same_shape this); simpl; auto.
  unfold assign; simpl; now rewrite !length_modify.
Qed.

Lemma switchShow_keeps_consistency (show : bool) (this this' : ParticleHeatMap) :
  consistent this -> switchShow show this = JS.Ok this' -> consistent this'.
Proof.
  intros Hc; unfold switchShow.
  destruct (particleSystem this) as [p|] eqn:Hp; intros [= <-].
  apply (consistent_same_shape this); simpl; auto.
  now rewrite length_modify.
Qed.

Lemma clear_keeps_consistency (this this' : ParticleHeatMap) :
  consistent this -> clear this = JS.Ok this' -> consistent this'.
Proof.
  intros (Hw & Hn & _); unfold clear; intros [= <-].
  unfold consistent, well_formed; simpl.
  destruct (particleSystem this) as [p|].
  - destruct (primitives_remove_shape p (scene this)) as (-> & -> & _).
    repeat split; try discriminate.
    + unfold well_formed in Hw; rewrite Forall_forall in *.
      intros q Hq; apply Hw; eapply In_remove_first; exact Hq.
    + now apply NoDup_remove_first.
  - repeat split; auto; discriminate.
Qed.

Lemma resetCamera_keeps_consistency (d : float) (this : ParticleHeatMap) :
  consistent this -> consistent (resetCamera d this).
Proof.
  apply consistent_same_shape; reflexivity.
Qed.

(** X1: every method keeps the instance and its scene consistent, and a new
    instance over a consistent scene is consistent. *)
Theorem methods_keep_consistency (this : ParticleHeatMap) :
  consistent this ->
  (forall reset this', init reset this = JS.Ok this' -> consistent this')
  /\ (forall options this', update options this = JS.Ok this' -> consistent this')
  /\ (forall show this', switchShow show this = JS.Ok this' -> consistent this')
  /\ (forall this', clear this = JS.Ok this' -> consistent this')
  /\ (forall d, consistent (resetCamera d this))
  /\ (forall options, consistent (new_ParticleHeatMap (scene this) options)).
Proof.
  intros Hc.
  split; [intros reset this'; now apply init_keeps_consistency|].
  split; [intros options this'; now apply update_keeps_consistency|].
  split; [intros show this'; now apply switchShow_keeps_consistency|].
  split; [intros this'; now apply clear_keeps_consistency|].
  split; [intros d; now apply resetCamera_keeps_consistency|].
  intros options; destruct Hc as (Hw & Hn & _).
  unfold consistent; simpl; repeat split; auto; discriminate.
Qed.

(** On a consistent instance the emitter reference names an object. *)
Lemma consistent_emitter (this : ParticleHeatMap) (p : ref) :
  consistent this -> particleSystem this = Some p ->
  exists e, nth_error (store (scene this)) p = Some e /\ emitter_of this = Some e.
Proof.
  intros (_ & _ & Hr) Hp; destruct (Hr p Hp) as [Hlt _].
  unfold emitter_of; rewrite Hp.
  destruct (nth_error (store (scene this)) p) as [e|] eqn:E; [eauto|].
  apply nth_error_None in E; lia.
Qed.

End Invariant.

(** ** [update] and the stored options *)

Lemma spread_empty (base : Required.t) : Required.spread base RenderOptions.empty = base.
Proof. destruct base; reflexivity. Qed.

Lemma assign_same (p : ref) (f : ParticleSystem.t -> ParticleSystem.t) (s : Scene)
  (e : ParticleSystem.t) :
  nth_error (store s) p = Some e -> f e = e -> assign p f s = s.
Proof.
  intros He Hf; unfold assign; rewrite (modify_same _ _ _ _ He Hf).
  destruct s; reflexivity.
Qed.

Section Update.

Context {engine : Cesium}.


Lemma init_in_sync (reset : bool) (this this' : ParticleHeatMap) :
  init reset this = JS.Ok this' -> in_sync this'.
Proof.
  intros H.
  destruct (init_inversion _ _ _ H) as (parsed & Hc & Hp & Hs & _ & Ho & Hr & _).
  assert (Hm : center this' = center this) by (unfold center; now rewrite Hr).
  unfold in_sync, emitter_of.
  rewrite Hp, Hs, nth_error_app2, Nat.sub_diag, Ho, Hm by lia; simpl.
  eexists; split; [reflexivity|].
  split; [now destruct reset|].
  split; [exists parsed; split; [exact Hc|reflexivity]|].
  destruct reset; repeat split.
Qed.

(** X3: [init] leaves the new emitter in step with the stored options, and
    visible; the options themselves are not changed. *)
Theorem init_establishes_sync (reset : bool) (this this' : ParticleHeatMap) :
  init reset this = JS.Ok this' ->
  in_sync this'
  /\ renderOptions this' = renderOptions this
  /\ exists e, emitter_of this' = Some e /\ ParticleSystem.show e = true.
Proof.
  intros H; split; [exact (init_in_sync _ _ _ H)|].
  destruct (init_inversion _ _ _ H) as (parsed & Hc & Hp & Hs & _ & Ho & _).
  split; [exact Ho|].
  unfold emitter_of.
  rewrite Hp, Hs, nth_error_app2, Nat.sub_diag by lia; simpl.
  eexists; split; reflexivity.
Qed.


(** An [update] that returns on a live emitter has parsed the stored start
    colour. *)
Lemma update_returns_parsed
  (options : RenderOptions.t) (this this' : ParticleHeatMap) (p : ref) :
  particleSystem this = Some p ->
  update options this = JS.Ok this' ->
  exists parsed,
    Color_fromCssColorString (Required.startColor (renderOptions this)) = Some parsed.
Proof.
  intros Hp H.
  destruct (Color_fromCssColorString (Required.startColor (renderOptions this)))
    as [parsed|] eqn:Hc; [eauto|].
  unfold update in H; rewrite (update_throws options this p Hp Hc) in H; discriminate.
Qed.

(** X5: what an [update] stores is shown by the next [update]: after
    [update(options)] and then [update({})] the emitter is in step with the
    merged options. *)
Theorem update_then_empty_update_syncs
  (options : RenderOptions.t) (this this1 this2 : ParticleHeatMap)
  (p : ref) (e : ParticleSystem.t) :
  particleSystem this = Some p ->
  nth_error (store (scene this)) p = Some e ->
  update options this = JS.Ok this1 ->
  update RenderOptions.empty this1 = JS.Ok this2 ->
  in_sync this2
  /\ renderOptions this2 = Required.spread (renderOptions this) options.
Proof.
  intros Hp He H1 H2.
  destruct (update_returns_parsed _ _ _ _ Hp H1) as (parsed & Hc).
  destruct (update_pushes_previous_options options this p e parsed Hp He Hc)
    as (t1 & E1 & Ho1 & Hp1 & e1 & He1 & _).
  rewrite H1 in E1; injection E1 as <-.
  assert (Hn1 : nth_error (store (scene this1)) p = Some e1)
    by (unfold emitter_of in He1; now rewrite Hp1 in He1).
  destruct (update_returns_parsed _ _ _ _ Hp1 H2) as (parsed1 & Hc1).
  destruct (update_pushes_previous_options RenderOptions.empty this1 p e1 parsed1
              Hp1 Hn1 Hc1)
    as (t2 & E2 & Ho2 & Hp2 & e2 & He2 & F1 & F2 & F3 & F4 & F5 & F6 & _).
  rewrite H2 in E2; injection E2 as <-.
  rewrite spread_empty in Ho2.
  assert (Hm : center this2 = center this1).
  { revert H2; unfold update, update_steps; rewrite Hp1, Hc1; intros [= <-]; reflexivity. }
  split; [|congruence].
  exists e2; rewrite Ho2, Hm; repeat split; try assumption.
  exists parsed1; split; assumption.
Qed.

End Update.

(** ** How the lifecycle methods compose *)

Lemma modify_ext (r : ref) (f g : ParticleSystem.t -> ParticleSystem.t)
  (l : list ParticleSystem.t) :
  (forall p, f p = g p) -> modify r f l = modify r g l.
Proof.
  intros H; revert r; induction l as [|p l IH]; intros [|r]; simpl; auto.
  - now rewrite H.
  - now rewrite IH.
Qed.

Lemma switchShow_after_switchShow (show show' : bool) (this this1 : ParticleHeatMap) :
  switchShow show this = JS.Ok this1 ->
  switchShow show' this1 = switchShow show' this.
Proof.
  unfold switchShow.
  destruct (particleSystem this) as [p|] eqn:Hp; intros [= <-]; simpl.
  rewrite Hp; unfold with_scene, assign; simpl.
  rewrite modify_modify.
  now rewrite (modify_ext p _ (ParticleSystem.set_show show')).
Qed.

(** X6: of two [switchShow] calls in a row the second decides: the state is the
    one the second call alone would give, and neither call writes anything
    but [show]. *)
Theorem switchShow_last_call_wins
  (show show' : bool) (this this1 : ParticleHeatMap) (p : ref) (e : ParticleSystem.t) :
  particleSystem this = Some p ->
  nth_error (store (scene this)) p = Some e ->
  switchShow show this = JS.Ok this1 ->
  switchShow show' this1 = switchShow show' this
  /\ emitter_of this1 = Some (ParticleSystem.set_show show e)
  /\ ParticleSystem.emissionRate (ParticleSystem.set_show show e)
     = ParticleSystem.emissionRate e
  /\ ParticleSystem.modelMatrix (ParticleSystem.set_show show e)
     = ParticleSystem.modelMatrix e
  /\ ParticleSystem.startColor (ParticleSystem.set_show show e)
     = ParticleSystem.startColor e
  /\ (forall q, q <> p ->
        nth_error (store (scene this1)) q = nth_error (store (scene this)) q)
  /\ primitives (scene this1) = primitives (scene this)
  /\ renderOptions this1 = renderOptions this.
Proof.
  intros Hp He H1.
  split; [now apply (switchShow_after_switchShow show)|].
  revert H1; unfold switchShow; rewrite Hp; intros [= <-].
  unfold emitter_of; simpl; rewrite Hp, nth_error_modify, He.
  repeat split.
  intros q Hq; now apply nth_error_modify_other.
Qed.

(** X7: [switchShow] with the value the emitter already has changes nothing, so
    hiding a visible emitter and showing it again gives back the state
    before the two calls. *)
Theorem hide_then_show_restores (this this1 : ParticleHeatMap) (e : ParticleSystem.t) :
  emitter_of this = Some e ->
  ParticleSystem.show e = true ->
  switchShow false this = JS.Ok this1 ->
  switchShow true this = JS.Ok this /\ switchShow true this1 = JS.Ok this.
Proof.
  intros He Hs H1.
  assert (E : switchShow true this = JS.Ok this).
  { unfold switchShow, emitter_of in *.
    destruct (particleSystem this) as [p|]; [|discriminate].
    rewrite (assign_same p _ _ e He) by (rewrite <- Hs; destruct e; reflexivity).
    destruct this; reflexivity. }
  split; [exact E|].
  now rewrite (switchShow_after_switchShow false true this this1 H1).
Qed.

Section Composition.

Context {engine : Cesium}.


(** X9: a second [init] without a [clear] in between leaves the first emitter
    in the scene for good: after [init], [init], [clear] the instance has no
    emitter, the collection holds what it held before plus the first
    emitter, and a further [clear] removes nothing. *)
Theorem second_init_leaks_first_emitter
  (reset reset' : bool) (this this1 this2 this3 : ParticleHeatMap) :
  consistent this ->
  init reset this = JS.Ok this1 ->
  init reset' this1 = JS.Ok this2 ->
  clear this2 = JS.Ok this3 ->
  particleSystem this1 = Some (List.length (store (scene this)))
  /\ particleSystem this3 = None
  /\ primitives (scene this3)
     = primitives (scene this) ++ [List.length (store (scene this))]
  /\ (exists first,
        nth_error (store (scene this3)) (List.length (store (scene this))) = Some first)
  /\ clear this3 = JS.Ok this3.
Proof.
  intros Hc H1 H2 H3.
  pose proof (init_keeps_consistency _ _ _ Hc H1) as Hc1.
  destruct (init_inversion _ _ _ H1) as (c1 & _ & Hp1 & Hs1 & Hr1 & _).
  destruct (init_inversion _ _ _ H2) as (c2 & _ & Hp2 & Hs2 & Hr2 & _).
  revert H3; unfold clear; rewrite Hp2; intros [= <-]; simpl.
  unfold primitives_remove; rewrite Hr2, existsb_fresh_last; simpl.
  rewrite remove_first_fresh by (apply well_formed_fresh, Hc1).
  repeat split; auto.
  eexists.
  rewrite nth_error_modify_other by (rewrite Hs1, length_app; simpl; lia).
  rewrite Hs2, Hs1, nth_error_app1 by (rewrite length_app; simpl; lia).
  now rewrite nth_error_app2, Nat.sub_diag by lia.
Qed.

(** X10: [clear] takes exactly the instance's emitter out of the collection
    and destroys it: the removed particle system is marked destroyed and its
    update callback is replaced; the other objects stay in the collection
    and in the store as they were, and the camera, the options and the grid
    are not touched. *)
Theorem clear_removes_only_its_emitter (this this' : ParticleHeatMap) (p : ref) :
  consistent this ->
  particleSystem this = Some p ->
  clear this = JS.Ok this' ->
  (forall q, In q (primitives (scene this')) <-> In q (primitives (scene this)) /\ q <> p)
  /\ (exists e,
        nth_error (store (scene this)) p = Some e
        /\ nth_error (store (scene this')) p = Some (ParticleSystem.destroy e)
        /\ ParticleSystem.isDestroyed (ParticleSystem.destroy e) = true
        /\ ParticleSystem.updateCallback (ParticleSystem.destroy e) = throwOnDestroyed)
  /\ (forall q, q <> p ->
        nth_error (store (scene this')) q = nth_error (store (scene this)) q)
  /\ List.length (store (scene this')) = List.length (store (scene this))
  /\ camera (scene this') = camera (scene this)
  /\ renderOptions this' = renderOptions this
  /\ data this' = data this.
Proof.
  intros Hc Hp.
  destruct (consistent_emitter this p Hc Hp) as (e & He & _).
  destruct Hc as (_ & Hn & Hr); destruct (Hr p Hp) as [_ Hin].
  unfold clear; rewrite Hp; intros [= <-]; simpl.
  unfold primitives_remove; rewrite (proj2 (existsb_In p _) Hin); simpl.
  split; [|split; [|split; [|split]]].
  - intros q; split.
    + intros H; split; [eapply In_remove_first; eassumption|].
      intros ->; revert H; apply NoDup_remove_first; exact Hn.
    + intros [Hq Hne]; now apply In_remove_first_other.
  - exists e; rewrite nth_error_modify, He; repeat split.
  - intros q Hq; now apply nth_error_modify_other.
  - apply length_modify.
  - repeat split.
Qed.

(** X20: the particle system [init] creates draws images of 25 by 25
    pixels: the [imageSize] option decides the minimum and the maximum image
    size, not the (12, 12) and (24, 24) passed along with it.  The system
    carries the smoke image and the instance's callback, and is shown and
    not destroyed. *)
Theorem init_emitter_image_size (reset : bool) (this this' : ParticleHeatMap) :
  init reset this = JS.Ok this' ->
  exists e,
    emitter_of this' = Some e
    /\ ParticleSystem.minimumImageSize e = Cartesian2.mk 25 25
    /\ ParticleSystem.maximumImageSize e = Cartesian2.mk 25 25
    /\ ParticleSystem.image e = "/smoke.png"%string
    /\ ParticleSystem.updateCallback e = particleCallback_bound
    /\ ParticleSystem.show e = true
    /\ ParticleSystem.isDestroyed e = false.
Proof.
  intros H.
  destruct (init_inversion _ _ _ H) as (parsed & _ & Hp & Hs & _).
  unfold emitter_of.
  rewrite Hp, Hs, nth_error_app2, Nat.sub_diag by lia; simpl.
  eexists; split; [reflexivity|]; repeat split.
Qed.

End Composition.

(** ** More on the update callback *)

(** X12: the lookup [this.data[posY]?.[posX]] is a number exactly at the cells
    of the grid, row by row: it is [undefined] for a row index outside the
    rows and for a column index outside that row, also when rows differ in
    length. *)
Theorem sample_defined_iff_in_bounds (this : ParticleHeatMap) (posX posY : Z) :
  (exists v, sample this posX posY = Some v) <-> in_bounds this posX posY = true.
Proof.
  split.
  - intros [v Hv].
    destruct (in_bounds this posX posY) eqn:E; [reflexivity|].
    rewrite (sample_out_of_bounds _ _ _ E) in Hv; discriminate.
  - apply sample_in_bounds.
Qed.

Section CallbackEffects.

Context {engine : Cesium}.

(** Reading the first row's length is what can fail in the index
    computation. *)
Lemma gridIndex_throws (this : ParticleHeatMap) (c : Cartographic.t) :
  (data this = [] -> exists message, gridIndex this c = JS.Throw (JS.TypeError message))
  /\ (forall e, gridIndex this c = JS.Throw e ->
      data this = [] /\ exists message, e = JS.TypeError message).
Proof.
  unfold gridIndex, JS.index; simpl.
  destruct (data this) as [|row0 rows]; simpl; split; eauto; try discriminate.
  intros e [= <-]; eauto.
Qed.

(** X13: the callback throws in four cases only, all with an emitter alive:
    the engine's projection of the position throws, the position has no
    projection, the grid has no row, or the particle's end colour is
    undefined over a cell without data.  What it throws is the exception of
    the projection or a [TypeError]. *)
Theorem callback_throws_exactly
  (this : ParticleHeatMap) (particle : Particle.t) (dt : float) :
  ((exists e, particleCallback this particle dt = JS.Throw e)
   <-> particleSystem this <> None
       /\ ((exists e, cartesianToCartographic (Particle.position particle) = JS.Throw e)
           \/ cartesianToCartographic (Particle.position particle) = JS.Ok None
           \/ data this = []
           \/ (Particle.endColor particle = None
               /\ exists c posX posY,
                    cartesianToCartographic (Particle.position particle) = JS.Ok (Some c)
                    /\ gridIndex this c = JS.Ok (posX, posY)
                    /\ JS.isNaN (sample this posX posY) = true)))
  /\ (forall e, particleCallback this particle dt = JS.Throw e ->
      cartesianToCartographic (Particle.position particle) = JS.Throw e
      \/ exists message, e = JS.TypeError message).
Proof.
  unfold particleCallback, particleCallback_steps.
  destruct (particleSystem this) as [p|].
  - destruct (cartesianToCartographic (Particle.position particle)) as [[c|]|x].
    + destruct (gridIndex_throws this c) as [Hempty Hthrow].
      destruct (gridIndex this c) as [[posX posY]|x] eqn:Hg.
      * assert (Hrows : data this <> [])
          by (intros H; destruct (Hempty H); discriminate).
        destruct (JS.isNaN (sample this posX posY)) eqn:Hn.
        -- destruct (Particle.endColor particle) as [endColor|] eqn:Hc; simpl.
           ++ split; [|discriminate].
              split; [intros [e H]; discriminate|].
              intros [_ [[e H]|[H|[H|[H _]]]]]; try discriminate; contradiction.
           ++ split; [|intros e [= <-]; right; eauto].
              split; [intros _|eauto].
              split; [discriminate|].
              right; right; right; split; [reflexivity|].
              exists c, posX, posY; auto.
        -- simpl; split; [|discriminate].
           split; [intros [e H]; discriminate|].
           intros [_ [[e H]|[H|[H|(_ & c' & x & y & Hp & Hg' & Hn')]]]];
             try discriminate; try contradiction.
           injection Hp as <-; rewrite Hg in Hg'; injection Hg' as <- <-.
           congruence.
      * destruct (Hthrow x eq_refl) as [Hd Hm]; simpl.
        split; [|intros e [= <-]; now right].
        split; [intros _; split; [discriminate|auto]|eauto].
    + simpl; split; [|intros e [= <-]; right; eauto].
      split; [intros _; split; [discriminate|auto]|eauto].
    + simpl; split; [|intros e [= <-]; now left].
      split; [intros _; split; [discriminate|left; eauto]|eauto].
  - simpl; split; [|discriminate].
    split; [intros [e H]; discriminate|intros [H _]; now contradiction H].
Qed.

(** X14: whatever the callback does to a particle, it writes only the velocity,
    the end colour, the alpha of the start colour and the image: position,
    mass, life, scales, image size and the start colour's red, green and
    blue are as before.  The image is kept or cleared, never set, and the
    start alpha is kept or set to 0, so a particle made invisible by a
    no-data cell stays without image and with start alpha 0 on every later
    call. *)
Theorem callback_writes_only_motion_and_colors
  (this : ParticleHeatMap) (particle particle' : Particle.t) (dt : float) :
  particleCallback this particle dt = JS.Ok particle' ->
  Particle.position particle' = Particle.position particle
  /\ Particle.mass particle' = Particle.mass particle
  /\ Particle.life particle' = Particle.life particle
  /\ Particle.startScale particle' = Particle.startScale particle
  /\ Particle.endScale particle' = Particle.endScale particle
  /\ Particle.imageSize particle' = Particle.imageSize particle
  /\ Color.red (Particle.startColor particle') = Color.red (Particle.startColor particle)
  /\ Color.green (Particle.startColor particle') = Color.green (Particle.startColor particle)
  /\ Color.blue (Particle.startColor particle') = Color.blue (Particle.startColor particle)
  /\ (Particle.image particle' = Particle.image particle \/ Particle.image particle' = None)
  /\ (Color.alpha (Particle.startColor particle')
      = Color.alpha (Particle.startColor particle)
      \/ Color.alpha (Particle.startColor particle') = 0)
  /\ (Particle.image particle = None -> Particle.image particle' = None)
  /\ (Color.alpha (Particle.startColor particle) = 0 ->
      Color.alpha (Particle.startColor particle') = 0).
Proof.
  unfold particleCallback, particleCallback_steps.
  destruct (particleSystem this) as [p|].
  - destruct (cartesianToCartographic (Particle.position particle)) as [[c|]|x];
      try discriminate.
    destruct (gridIndex this c) as [[posX posY]|e]; simpl; [|discriminate].
    destruct (JS.isNaN (sample this posX posY));
      [destruct (Particle.endColor particle); [|discriminate]|];
      intros [= <-]; simpl; repeat split; auto.
  - intros [= <-]; repeat split; auto.
Qed.

End CallbackEffects.

Section CallbackTwice.

Context {engine : Cesium}.

Variables (this : ParticleHeatMap) (particle : Particle.t) (dt dt' : float).
Variables (p : ref) (cartographic : Cartographic.t) (posX posY : Z).

Hypothesis live : particleSystem this = Some p.
Hypothesis projected :
  cartesianToCartographic (Particle.position particle) = JS.Ok (Some cartographic).
Hypothesis resolved : gridIndex this cartographic = JS.Ok (posX, posY).

(** X15: over a cell without data a second call changes nothing more: the
    particle the first call leaves, when it had an end colour, is left as it
    is by the next one. *)
Theorem no_data_callback_is_idempotent (endColor : Color.t) :
  Particle.endColor particle = Some endColor ->
  JS.isNaN (sample this posX posY) = true ->
  exists particle',
    particleCallback this particle dt = JS.Ok particle'
    /\ particleCallback this particle' dt' = JS.Ok particle'.
Proof.
  intros Hc E; exists (neutralize particle).
  split.
  - now rewrite (particleCallback_live this particle dt p cartographic posX posY), E, Hc.
  - rewrite (particleCallback_live this (neutralize particle) dt' p cartographic
               posX posY live projected resolved), E; simpl; rewrite Hc.
    unfold neutralize; simpl; rewrite Hc; reflexivity.
Qed.

(** X16: over a cell with a number [v] the perturbation adds up: a particle that
    has not moved gets, from two calls, twice the same vector added to its
    velocity, and the end colour of the first call again. *)
Theorem callback_twice_adds_twice (v : float) :
  sample this posX posY = Some v ->
  is_nan v = false ->
  let g :=
    Cartesian3.multiplyByScalar (Cartesian3.normalize (Particle.position particle))
      (v * 10 * Required.scale (renderOptions this)) in
  exists particle1 particle2,
    particleCallback this particle dt = JS.Ok particle1
    /\ particleCallback this particle1 dt' = JS.Ok particle2
    /\ Particle.velocity particle1 = Cartesian3.add (Particle.velocity particle) g
    /\ Particle.velocity particle2
       = Cartesian3.add (Cartesian3.add (Particle.velocity particle) g) g
    /\ Particle.endColor particle2 = Particle.endColor particle1
    /\ Particle.image particle2 = Particle.image particle.
Proof.
  intros Hv Hn g.
  pose proof (particleCallback_sampled this particle dt p cartographic posX posY
                live projected resolved v Hv Hn) as H1.
  match type of H1 with _ = JS.Ok ?q => set (particle1 := q) in * end.
  assert (projected1 :
            cartesianToCartographic (Particle.position particle1)
            = JS.Ok (Some cartographic))
    by exact projected.
  pose proof (particleCallback_sampled this particle1 dt' p cartographic posX posY
                live projected1 resolved v Hv Hn) as H2.
  exists particle1; eexists.
  split; [exact H1|].
  split; [exact H2|].
  simpl; repeat split.
Qed.

End CallbackTwice.

(** ** Coordinates that are not numbers *)

Lemma Prim2SF_inj (a b : float) : Prim2SF a = Prim2SF b -> a = b.
Proof.
  intros H; rewrite <- (FloatAxioms.SF2Prim_Prim2SF a), <- (FloatAxioms.SF2Prim_Prim2SF b).
  now rewrite H.
Qed.

Lemma is_nan_eq (a : float) : is_nan a = true -> a = nan.
Proof.
  unfold is_nan; rewrite FloatAxioms.eqb_spec; intros H.
  apply Prim2SF_inj; change (Prim2SF nan) with S754_nan.
  destruct (Prim2SF a) as [s|s| |s m e]; auto; exfalso; revert H.
  - destruct s; discriminate.
  - destruct s; discriminate.
  - unfold SFeqb, SFcompare.
    destruct s; rewrite Z.compare_refl, Pos.compare_cont_refl; discriminate.
Qed.

Lemma nan_sub_l (a : float) : nan - a = nan.
Proof.
  apply Prim2SF_inj; rewrite FloatAxioms.sub_spec; reflexivity.
Qed.

Lemma nan_sub_r (a : float) : a - nan = nan.
Proof.
  apply Prim2SF_inj; rewrite FloatAxioms.sub_spec.
  change (Prim2SF nan) with S754_nan.
  destruct (Prim2SF a); reflexivity.
Qed.

Lemma nan_div_l (a : float) : nan / a = nan.
Proof.
  apply Prim2SF_inj; rewrite FloatAxioms.div_spec; reflexivity.
Qed.

Lemma nan_mul_l (a : float) : nan * a = nan.
Proof.
  apply Prim2SF_inj; rewrite FloatAxioms.mul_spec; reflexivity.
Qed.

(** X17: a longitude that is [NaN] resolves to column 0 and a latitude that is
    [NaN] to row 0: [~~NaN] is 0, so a particle whose projected position is
    not a number is not taken for a particle without data; it samples the
    first row or column of the grid. *)
Theorem nan_coordinates_resolve_to_first_cell
  (this : ParticleHeatMap) (c : Cartographic.t) (row0 : list float) :
  JS.index (data this) 0 = Some row0 ->
  (is_nan (Cartographic.longitude c) = true ->
   exists posY, gridIndex this c = JS.Ok (0%Z, posY))
  /\ (is_nan (Cartographic.latitude c) = true ->
      exists posX, gridIndex this c = JS.Ok (posX, 0%Z))
  /\ (is_nan (Cartographic.longitude c) = true ->
      is_nan (Cartographic.latitude c) = true ->
      gridIndex this c = JS.Ok (0%Z, 0%Z) /\ sample this 0 0 = JS.index row0 0).
Proof.
  intros H0.
  assert (Hx : is_nan (Cartographic.longitude c) = true ->
               JS.double_tilde
                 (JS.abs (lonGap (rectangle this) (Cartographic.longitude c)
                          / Rectangle.width (rectangle this)) * JS.length row0) = 0%Z).
  { intros Hn; rewrite (is_nan_eq _ Hn); unfold lonGap.
    change (nan <? 0) with false; simpl.
    now rewrite nan_sub_l, nan_div_l; unfold JS.abs; change (abs nan) with nan;
      rewrite nan_mul_l. }
  assert (Hy : is_nan (Cartographic.latitude c) = true ->
               JS.double_tilde
                 (JS.abs ((Rectangle.north (rectangle this) - Cartographic.latitude c)
                          / Rectangle.height (rectangle this))
                  * JS.length (data this)) = 0%Z).
  { intros Hn; rewrite (is_nan_eq _ Hn).
    now rewrite nan_sub_r, nan_div_l; unfold JS.abs; change (abs nan) with nan;
      rewrite nan_mul_l. }
  unfold gridIndex; rewrite H0.
  split; [intros Hn; rewrite (Hx Hn); eauto|].
  split; [intros Hn; rewrite (Hy Hn); eauto|].
  intros Hl Hn; rewrite (Hx Hl), (Hy Hn).
  split; [reflexivity|].
  unfold sample; now rewrite H0.
Qed.

(** ** The demo script *)

Section DemoData.

Variable random : RandomSource.

Lemma fill_col_spec (y : nat) (col : list float) (next : nat) :
  fill_col random y col next
  = (col ++ map (fun i => random (next + i)%nat * 2 - 1) (seq 0 y), (next + y)%nat).
Proof.
  revert col next; induction y as [|y IH]; intros col next; simpl.
  - now rewrite app_nil_r, Nat.add_0_r.
  - rewrite IH, <- app_assoc, <- seq_shift, map_map; simpl.
    rewrite Nat.add_0_r; f_equal; [|lia].
    do 2 f_equal; apply map_ext; intros i; do 3 f_equal; lia.
Qed.

Lemma fill_data_spec (x y : nat) (data : list (list float)) (next : nat) :
  fill_data random x y data next
  = (data
     ++ map (fun j => map (fun i => random (next + j * y + i)%nat * 2 - 1) (seq 0 y))
          (seq 0 x),
     (next + x * y)%nat).
Proof.
  revert data next; induction x as [|x IH]; intros data next; simpl.
  - now rewrite app_nil_r, Nat.add_0_r.
  - rewrite fill_col_spec, IH, <- app_assoc, <- seq_shift, map_map; simpl.
    f_equal; [|lia].
    do 2 f_equal.
    + apply map_ext; intros i; do 3 f_equal; lia.
    + apply map_ext; intros j; apply map_ext; intros i; do 3 f_equal; lia.
Qed.

Lemma generateMatrixData_rows (x y next : nat) :
  List.length (fst (generateMatrixData random x y next)) = x
  /\ Forall (fun row => List.length row = y) (fst (generateMatrixData random x y next)).
Proof.
  unfold generateMatrixData; rewrite fill_data_spec; simpl.
  split; [now rewrite length_map, length_seq|].
  apply Forall_forall; intros row Hrow.
  apply in_map_iff in Hrow as (j & <- & _).
  now rewrite length_map, length_seq.
Qed.

(** X18: [generateMatrixData(x, y)] returns [x] rows of [y] values each (no row
    at all for [x = 0]); it draws [x * y] random numbers, and the value in
    row [j], column [i] is twice the draw number [j * y + i], minus one. *)
Theorem generateMatrixData_shape (x y next : nat) :
  List.length (fst (generateMatrixData random x y next)) = x
  /\ Forall (fun row => List.length row = y) (fst (generateMatrixData random x y next))
  /\ snd (generateMatrixData random x y next) = (next + x * y)%nat
  /\ (x = O -> fst (generateMatrixData random x y next) = [])
  /\ (forall j i, (j < x)%nat -> (i < y)%nat ->
      exists row,
        nth_error (fst (generateMatrixData random x y next)) j = Some row
        /\ nth_error row i = Some (random (next + j * y + i)%nat * 2 - 1)).
Proof.
  destruct (generateMatrixData_rows x y next) as [Hl Hf].
  split; [exact Hl|].
  split; [exact Hf|].
  clear Hl Hf; unfold generateMatrixData; rewrite fill_data_spec; simpl.
  split; [reflexivity|].
  split; [intros ->; reflexivity|].
  intros j i Hj Hi; eexists; split.
  - rewrite nth_error_map, nth_error_seq.
    destruct (Nat.ltb_spec j x); [reflexivity|lia].
  - rewrite nth_error_map, nth_error_seq.
    destruct (Nat.ltb_spec i y); [reflexivity|lia].
Qed.

Context {engine : Cesium}.

(** X19: with an engine that parses the default start colour, the script
    ends, whatever the random numbers and the viewer's scene, with one more
    emitter in the scene, visible and in step with the options (3000
    particles a second, frame at height 10000, the default lifetime), one
    camera flight asked for, and a grid of 10 rows of 10 values, on which
    the callback resolves an index for every position. *)
Theorem script_starts_the_emitter (viewer_scene : Scene) (parsed : Color.t) :
  Color_fromCssColorString (Required.startColor defaultOptions) = Some parsed ->
  exists this e flight,
    script random viewer_scene = JS.Ok this
    /\ particleSystem this = Some (List.length (store viewer_scene))
    /\ primitives (scene this)
       = primitives viewer_scene ++ [List.length (store viewer_scene)]
    /\ camera (scene this) = camera viewer_scene ++ [flight]
    /\ emitter_of this = Some e
    /\ ParticleSystem.show e = true
    /\ ParticleSystem.emissionRate e = 3000
    /\ ParticleSystem.lifetime e = 12
    /\ ParticleSystem.startColor e = Color.withAlpha parsed 0
    /\ ParticleSystem.modelMatrix e
       = Transforms_eastNorthUpToFixedFrame
           (Cartesian3_fromRadians (fst (center this)) (snd (center this)) 10000)
    /\ List.length (data this) = 10%nat
    /\ Forall (fun row => List.length row = 10%nat) (data this)
    /\ forall c, exists posX posY, gridIndex this c = JS.Ok (posX, posY).
Proof.
  intros Hc.
  destruct (generateMatrixData_rows 10 10 0) as (Hl & Hf).
  unfold script, particleHeatMapObj.
  set (grid := fst (generateMatrixData random 10 10 0)) in *; clearbody grid.
  unfold init, init_steps, allocate, primitives_add, resetCamera, with_scene.
  simpl in Hc |- *; rewrite Hc; simpl.
  eexists; eexists; eexists.
  split; [reflexivity|]; simpl.
  split; [reflexivity|].
  split; [reflexivity|].
  split; [reflexivity|].
  split; [unfold emitter_of; simpl; rewrite nth_error_app2, Nat.sub_diag by lia;
          reflexivity|].
  split; [reflexivity|].
  split; [reflexivity|].
  split; [reflexivity|].
  split; [reflexivity|].
  split; [reflexivity|].
  split; [exact Hl|].
  split; [exact Hf|].
  intros c; unfold gridIndex, JS.index; simpl.
  destruct grid as [|row0 rows]; [discriminate Hl|].
  simpl; eauto.
Qed.

End DemoData.

(** ** The theorems above, on the demo instance *)

Lemma demo_is_consistent : consistent Flat.demo.
Proof.
  unfold consistent, well_formed; simpl.
  repeat split; try discriminate; constructor.
Qed.

Lemma live_is_consistent : consistent Flat.live.
Proof.
  apply (init_keeps_consistency (engine := Flat.engine) false Flat.demo);
    [exact demo_is_consistent|reflexivity].
Qed.


Lemma methods_keep_consistency_witness :
  (exists this', init (engine := Flat.engine) true Flat.live = JS.Ok this' /\ consistent this')
  /\ (exists this', clear Flat.live = JS.Ok this' /\ consistent this')
  /\ consistent (resetCamera (engine := Flat.engine) 1 Flat.live).
Proof.
  pose proof (methods_keep_consistency (engine := Flat.engine) Flat.live
                live_is_consistent) as (Hi & _ & _ & Hc & Hr & _).
  split; [eexists; split; [reflexivity|apply (Hi true); reflexivity]|].
  split; [eexists; split; [reflexivity|apply Hc; reflexivity]|].
  apply Hr.
Defined.


Lemma init_establishes_sync_witness :
  in_sync (engine := Flat.engine) Flat.live
  /\ renderOptions Flat.live = renderOptions Flat.demo.
Proof.
  destruct (init_establishes_sync (engine := Flat.engine) false Flat.demo Flat.live eq_refl)
    as (Hs & Ho & _).
  split; [exact Hs|exact Ho].
Defined.


Lemma update_then_empty_update_witness :
  exists this1 this2,
    update (engine := Flat.engine) (only_height 5000) Flat.live = JS.Ok this1
    /\ update (engine := Flat.engine) RenderOptions.empty this1 = JS.Ok this2
    /\ in_sync (engine := Flat.engine) this2
    /\ renderOptions this2
       = Required.spread (renderOptions Flat.live) (only_height 5000).
Proof.
  eexists; eexists.
  split; [reflexivity|].
  split; [reflexivity|].
  apply (update_then_empty_update_syncs (engine := Flat.engine)
           (only_height 5000) Flat.live _ _ 0%nat _ eq_refl eq_refl eq_refl eq_refl).
Defined.

Lemma switchShow_last_call_wins_witness :
  exists this1,
    switchShow false Flat.live = JS.Ok this1
    /\ switchShow true this1 = switchShow true Flat.live
    /\ primitives (scene this1) = primitives (scene Flat.live).
Proof.
  eexists; split; [reflexivity|].
  destruct (switchShow_last_call_wins false true Flat.live _ 0%nat _
              eq_refl eq_refl eq_refl) as (H & _ & _ & _ & _ & _ & Hp & _).
  split; [exact H|exact Hp].
Defined.

Lemma hide_then_show_witness :
  exists this1,
    switchShow false Flat.live = JS.Ok this1
    /\ switchShow true Flat.live = JS.Ok Flat.live
    /\ switchShow true this1 = JS.Ok Flat.live.
Proof.
  eexists; split; [reflexivity|].
  apply (hide_then_show_restores Flat.live _ _ eq_refl eq_refl eq_refl).
Defined.

Lemma second_init_witness :
  exists this1 this2 this3,
    init (engine := Flat.engine) false Flat.demo = JS.Ok this1
    /\ init (engine := Flat.engine) true this1 = JS.Ok this2
    /\ clear this2 = JS.Ok this3
    /\ particleSystem this3 = None
    /\ primitives (scene this3) = [0%nat]
    /\ clear this3 = JS.Ok this3.
Proof.
  eexists; eexists; eexists.
  split; [reflexivity|].
  split; [reflexivity|].
  split; [reflexivity|].
  destruct (second_init_leaks_first_emitter (engine := Flat.engine) false true
              Flat.demo _ _ _ demo_is_consistent eq_refl eq_refl eq_refl)
    as (_ & Hn & Hp & _ & Hc).
  split; [exact Hn|].
  split; [exact Hp|exact Hc].
Defined.

Lemma clear_removes_only_its_emitter_witness :
  exists this',
    clear Flat.live = JS.Ok this'
    /\ List.length (store (scene this')) = List.length (store (scene Flat.live))
    /\ renderOptions this' = renderOptions Flat.live.
Proof.
  eexists; split; [reflexivity|].
  destruct (clear_removes_only_its_emitter Flat.live _ 0%nat
              live_is_consistent eq_refl eq_refl) as (_ & _ & _ & Hs & _ & Ho & _).
  split; [exact Hs|exact Ho].
Defined.

Lemma init_emitter_witness :
  exists e,
    emitter_of Flat.live = Some e
    /\ ParticleSystem.minimumImageSize e = Cartesian2.mk 25 25
    /\ ParticleSystem.maximumImageSize e = Cartesian2.mk 25 25.
Proof.
  destruct (init_emitter_image_size (engine := Flat.engine) false Flat.demo Flat.live
              eq_refl) as (e & He & Hmin & Hmax & _).
  exists e; auto.
Defined.


Lemma callback_throws_witness :
  particleCallback (engine := Flat.engine) Flat.live (Flat.particle_at nan 1) 0.0625
  = JS.Throw (JS.DeveloperError "normalized result is not a number")
  /\ (cartesianToCartographic (Cesium := Flat.engine)
        (Particle.position (Flat.particle_at nan 1))
      = JS.Throw (JS.DeveloperError "normalized result is not a number")
      \/ exists message,
           JS.DeveloperError "normalized result is not a number" = JS.TypeError message).
Proof.
  split; [reflexivity|].
  apply (proj2 (callback_throws_exactly (engine := Flat.engine)
                  Flat.live (Flat.particle_at nan 1) 0.0625)).
  reflexivity.
Defined.

Lemma callback_writes_witness :
  exists particle',
    particleCallback (engine := Flat.engine) Flat.live (particle_over 116 59) 0.0625
    = JS.Ok particle'
    /\ Particle.position particle' = Particle.position (particle_over 116 59)
    /\ Particle.life particle' = Particle.life (particle_over 116 59).
Proof.
  eexists; split; [evaluate|].
  destruct (callback_writes_only_motion_and_colors (engine := Flat.engine)
              Flat.live (particle_over 116 59) _ 0.0625 ltac:(evaluate))
    as (Hp & _ & Hl & _).
  split; [exact Hp|exact Hl].
Defined.

Lemma no_data_idempotent_witness :
  exists particle',
    particleCallback (engine := Flat.engine) Flat.live (particle_over 116 56) 0.0625
    = JS.Ok particle'
    /\ particleCallback (engine := Flat.engine) Flat.live particle' 0.125
       = JS.Ok particle'.
Proof.
  refine (no_data_callback_is_idempotent (engine := Flat.engine)
            Flat.live (particle_over 116 56) 0.0625 0.125 0%nat (degrees 116 56) 0%Z 1%Z
            eq_refl eq_refl _ (Color.mk 1 1 1 1) eq_refl eq_refl).
  evaluate.
Defined.

Lemma callback_twice_witness :
  let g :=
    Cartesian3.multiplyByScalar
      (Cartesian3.normalize (Particle.position (particle_over 119 59)))
      (-0.25 * 10 * Required.scale (renderOptions Flat.live)) in
  exists particle1 particle2,
    particleCallback (engine := Flat.engine) Flat.live (particle_over 119 59) 0.0625
    = JS.Ok particle1
    /\ particleCallback (engine := Flat.engine) Flat.live particle1 0.125 = JS.Ok particle2
    /\ Particle.velocity particle1
       = Cartesian3.add (Particle.velocity (particle_over 119 59)) g
    /\ Particle.velocity particle2
       = Cartesian3.add (Cartesian3.add (Particle.velocity (particle_over 119 59)) g) g
    /\ Particle.endColor particle2 = Particle.endColor particle1
    /\ Particle.image particle2 = Particle.image (particle_over 119 59).
Proof.
  apply (callback_twice_adds_twice (engine := Flat.engine)
           Flat.live (particle_over 119 59) 0.0625 0.125 0%nat (degrees 119 59) 1%Z 0%Z).
  - reflexivity.
  - reflexivity.
  - evaluate.
  - reflexivity.
  - reflexivity.
Defined.

Lemma nan_coordinates_witness :
  gridIndex Flat.demo (Cartographic.mk nan nan 0) = JS.Ok (0%Z, 0%Z)
  /\ sample Flat.demo 0 0 = Some 0.5.
Proof.
  apply (proj2 (proj2 (nan_coordinates_resolve_to_first_cell Flat.demo
                         (Cartographic.mk nan nan 0) [0.5; -0.25] eq_refl)));
    reflexivity.
Defined.

(** ** What no method writes *)

Lemma gridIndex_depends_on_grid_and_rectangle (this this' : ParticleHeatMap)
  (c : Cartographic.t) :
  rectangle this' = rectangle this -> data this' = data this ->
  gridIndex this' c = gridIndex this c /\ center this' = center this
  /\ forall posX posY, sample this' posX posY = sample this posX posY.
Proof.
  intros Hr Hd; unfold gridIndex, center, sample; rewrite Hr, Hd; auto.
Qed.

(** X11: no method assigns the rectangle or the grid: after any call they are
    the ones the constructor received, so the centre and the cell a
    position resolves to are the same for the whole life of the instance. *)
Theorem rectangle_and_grid_are_never_written {engine : Cesium}
  (this : ParticleHeatMap) (c : Cartographic.t) :
  (forall reset this', init reset this = JS.Ok this' ->
     rectangle this' = rectangle this /\ data this' = data this
     /\ gridIndex this' c = gridIndex this c /\ center this' = center this)
  /\ (forall options this', update options this = JS.Ok this' ->
      rectangle this' = rectangle this /\ data this' = data this
      /\ gridIndex this' c = gridIndex this c /\ center this' = center this)
  /\ (forall show this', switchShow show this = JS.Ok this' ->
      rectangle this' = rectangle this /\ data this' = data this
      /\ gridIndex this' c = gridIndex this c /\ center this' = center this)
  /\ (forall this', clear this = JS.Ok this' ->
      rectangle this' = rectangle this /\ data this' = data this
      /\ gridIndex this' c = gridIndex this c /\ center this' = center this)
  /\ (forall d,
      rectangle (resetCamera d this) = rectangle this
      /\ data (resetCamera d this) = data this).
Proof.
  assert (K : forall this', rectangle this' = rectangle this -> data this' = data this ->
              rectangle this' = rectangle this /\ data this' = data this
              /\ gridIndex this' c = gridIndex this c /\ center this' = center this).
  { intros this' Hr Hd.
    destruct (gridIndex_depends_on_grid_and_rectangle this this' c Hr Hd) as (H1 & H2 & _).
    auto. }
  split.
  { intros reset this' H.
    destruct (init_inversion _ _ _ H) as (parsed & _ & _ & _ & _ & _ & Hr & Hd).
    now apply K. }
  split.
  { intros options this'; unfold update, update_steps.
    destruct (particleSystem this); [|intros [= <-]; now apply K].
    destruct (Color_fromCssColorString (Required.startColor (renderOptions this)));
      intros [= <-]; now apply K. }
  split.
  { intros show this'; unfold switchShow.
    destruct (particleSystem this); intros [= <-]; now apply K. }
  split.
  { intros this'; unfold clear; intros [= <-]; now apply K. }
  intros d; split; reflexivity.
Qed.

Lemma script_starts_witness :
  exists this e,
    script (engine := Flat.engine) sixteenths Flat.empty_scene = JS.Ok this
    /\ particleSystem this = Some 0%nat
    /\ emitter_of this = Some e
    /\ ParticleSystem.emissionRate e = 3000
    /\ List.length (data this) = 10%nat.
Proof.
  destruct (script_starts_the_emitter sixteenths (engine := Flat.engine)
              Flat.empty_scene _ eq_refl)
    as (this & e & flight & H1 & H2 & _ & _ & H3 & _ & H4 & _ & _ & _ & H5 & _).
  exists this, e; auto.
Defined.

Lemma rectangle_and_grid_witness :
  exists this',
    init (engine := Flat.engine) true Flat.demo = JS.Ok this'
    /\ rectangle this' = rectangle Flat.demo
    /\ data this' = data Flat.demo
    /\ gridIndex this' (degrees 116 59) = gridIndex Flat.demo (degrees 116 59)
    /\ center this' = center Flat.demo.
Proof.
  eexists; split; [reflexivity|].
  apply (proj1 (rectangle_and_grid_are_never_written (engine := Flat.engine)
                  Flat.demo (degrees 116 59)) true).
  reflexivity.
Defined.

Lemma generateMatrixData_witness :
  exists row,
    nth_error (fst (generateMatrixData sixteenths 2 3 0)) 1 = Some row
    /\ nth_error row 2 = Some (sixteenths (0 + 1 * 3 + 2)%nat * 2 - 1).
Proof.
  apply (proj2 (proj2 (proj2 (proj2 (generateMatrixData_shape sixteenths 2 3 0)))));
    repeat constructor.
Defined.
